(** * ZeroBudgetApp (meu-financeiro/src/App.jsx): the monthly ledger logic

    A shallow embedding of the business logic of [App.jsx]: the month key,
    the rollover computation, the opening of a month, the figures shown on
    the dashboard and the screen selection that gates the forms.

    Conventions of the model.
    - A JavaScript number held in the state (an amount, an income, a limit)
      is a rational [Q]: the forms read them from [<input type="number">],
      which only yields finite numbers, and the handlers and the page are
      followed with these numbers taken exactly.  Where the binary rounding
      or the overflow of the numbers of the code decides a property, the
      same computations are given on IEEE 754 doubles, in module [Dbl].  The
      division of the category percentage is done in [JsNum], which has
      [Infinity] and [NaN].
    - The React state is a record; a handler is a computation in a small
      state monad [Act] whose only writes are the [set...] functions of the
      source.  Events are handled one at a time and the component renders
      again after each, so the values a handler finds in its closure are
      those of the current state.
    - Loading from and saving to [localStorage] are not modelled beyond the
      empty state of a first run, which is also what the page shows after
      the "Resetar Aplicativo" button. *)

From Stdlib Require Import ZArith QArith Qminmax Qabs Lqa Lia.
From Stdlib Require Import Ascii String DecimalString DecimalPos DecimalZ.
From Stdlib Require PrimFloat.
From stdpp Require Import list strings gmap.

#[local] Open Scope string_scope.
#[local] Open Scope Z_scope.

(* ====================================================================== *)
(** * JavaScript primitives used by the source *)
(* ====================================================================== *)

Module Js.

(** [String(n)] for an integer [n]: decimal digits, with a minus sign. *)
Definition String_of_int (n : Z) : string :=
  NilZero.string_of_int (Z.to_int n).

(** [Number(s)] on the pieces of a month key: a run of decimal digits is
    its value, the empty string is [0], any other text is [NaN] ([None]).
    (Signs, blanks, fractions and exponents do not occur in the pieces
    that [split('-')] cuts out of a key written by [getMonthKey].) *)
Definition Number (s : string) : option Z :=
  match NilEmpty.uint_of_string s with
  | Some d => Some (Z.of_uint d)
  | None => None
  end.

(** [s.split(sep)] for a one-character separator. *)
Fixpoint split (sep : ascii) (s : string) : list string :=
  match s with
  | EmptyString => [EmptyString]
  | String c rest =>
      if Ascii.eqb c sep then EmptyString :: split sep rest
      else match split sep rest with
           | [] => [String c EmptyString]
           | piece :: pieces => String c piece :: pieces
           end
  end.

Fixpoint repeat_char (c : ascii) (n : nat) : string :=
  match n with
  | O => EmptyString
  | S k => String c (repeat_char c k)
  end.

(** [s.padStart(n, c)] for a one-character filler. *)
Definition padStart (n : nat) (c : ascii) (s : string) : string :=
  repeat_char c (n - String.length s) ++ s.

(** A [Date], as far as the source reads it: [getFullYear()] and
    [getMonth()] (0..11), or an invalid date.  Day and time of day are
    not modelled. *)
Inductive Date : Type :=
| ValidDate (fullYear : Z) (month : Z)
| InvalidDate.

(** The time value of a [Date] is at most 8.64e15 ms away from 1970: the
    first day of a month is a date from May of year -271821 to September
    of year 275760, counted here in months since year 0. *)
Definition minMonths : Z := -271821 * 12 + 4.
Definition maxMonths : Z := 275760 * 12 + 8.

(** [new Date(year, monthIndex)]: a year from 0 to 99 means 1900 + year;
    a month index outside 0..11 carries into the year; [NaN] in either
    argument, or a month out of the range above, gives an invalid date. *)
Definition newDate (year monthIndex : option Z) : Date :=
  match year, monthIndex with
  | Some y, Some m =>
      let yr := if (0 <=? y) && (y <=? 99) then 1900 + y else y in
      let months := yr * 12 + m in
      if (minMonths <=? months) && (months <=? maxMonths)
      then ValidDate (months / 12) (months mod 12)
      else InvalidDate
  | _, _ => InvalidDate
  end.

(** Finite numbers, the two infinities and [NaN]; zero is unsigned. *)
Inductive JsNum : Type :=
| Fin (q : Q)
| PosInf
| NegInf
| NaN.

Definition Qsign (q : Q) : comparison := (q ?= 0)%Q.

(** [a / b] on finite operands. *)
Definition div (a b : Q) : JsNum :=
  match Qsign b with
  | Eq => match Qsign a with
          | Eq => NaN
          | Gt => PosInf
          | Lt => NegInf
          end
  | _ => Fin (a / b)%Q
  end.

(** [x * k] for a finite positive factor [k]. *)
Definition mul_pos (x : JsNum) (k : Q) : JsNum :=
  match x with
  | Fin q => Fin (q * k)%Q
  | other => other
  end.

(** [Math.min(x, k)] for a finite [k]: [NaN] is contagious. *)
Definition Math_min (x : JsNum) (k : Q) : JsNum :=
  match x with
  | Fin q => Fin (if Qle_bool q k then q else k)
  | PosInf => Fin k
  | NegInf => NegInf
  | NaN => NaN
  end.

(** [Math.max(a, b)] on finite numbers. *)
Definition Math_max (a b : Q) : Q :=
  if Qle_bool a b then b else a.

(** [x || 0] on a finite number: [0] is the only falsy one. *)
Definition or_zero (x : Q) : Q :=
  if Qeq_bool x 0 then 0%Q else x.

End Js.

(* ====================================================================== *)
(** * Month keys (PARTE 1) *)
(* ====================================================================== *)

(** [getMonthKey]: year, a dash, the month number padded to two digits. *)
Definition getMonthKey (date : Js.Date) : string :=
  match date with
  | Js.ValidDate fullYear month =>
      Js.String_of_int fullYear ++ "-" ++
      Js.padStart 2 "0"%char (Js.String_of_int (month + 1))
  | Js.InvalidDate => "NaN-NaN"
  end.

(** Lines 118-120 of [calculateRollover]: the key of the month before
    [targetMonthKey]. *)
Definition previousMonthKey (targetMonthKey : string) : string :=
  let parts := Js.Number <$> Js.split "-"%char targetMonthKey in
  let year := mjoin (parts !! 0%nat) in
  let month := mjoin (parts !! 1%nat) in
  let prevDate := Js.newDate year ((fun m => m - 2) <$> month) in
  getMonthKey prevDate.

(** The canonical form "YYYY-MM" of a month key: four digits, a dash, and
    two digits that spell a month from 01 to 12. *)
Definition is_digit (c : ascii) : bool :=
  (48 <=? nat_of_ascii c)%nat && (nat_of_ascii c <=? 57)%nat.

Definition canonicalMonthKey (key : string) : bool :=
  match key with
  | String y1 (String y2 (String y3 (String y4 (String dash
      (String m1 (String m2 EmptyString)))))) =>
      is_digit y1 && is_digit y2 && is_digit y3 && is_digit y4 &&
      Ascii.eqb dash "-" && is_digit m1 && is_digit m2 &&
      match Js.Number (String m1 (String m2 EmptyString)) with
      | Some m => (1 <=? m) && (m <=? 12)
      | None => false
      end
  | _ => false
  end.

(** Four decimal digits, the "YYYY" of the canonical form. *)
Definition fourDigits (s : string) : bool :=
  match s with
  | String y1 (String y2 (String y3 (String y4 EmptyString))) =>
      is_digit y1 && is_digit y2 && is_digit y3 && is_digit y4
  | _ => false
  end.

(** The key of calendar month [month] (1..12) of year [year]. *)
Definition monthKeyOf (year month : Z) : string :=
  getMonthKey (Js.ValidDate year (month - 1)).

(** The text "YYYY-MM" written out for a year and a month index (0..11):
    the year, a dash, and the month number, with a zero in front of the
    numbers below ten.  It is what the properties compare the keys of the
    code with. *)
Definition monthKeyText (year monthIndex : Z) : string :=
  Js.String_of_int year
  ++ (if monthIndex <? 9 then "-0" else "-")
  ++ Js.String_of_int (monthIndex + 1).

(* ====================================================================== *)
(** * The four collections and the React state (PARTE 3) *)
(* ====================================================================== *)

Module Category.
Record t : Type := mk { id : string; name : string; limit : Q }.
End Category.

Module Recurring.
Record t : Type :=
  mk { id : string; name : string; amount : Q; categoryId : string }.
End Recurring.

(** A transaction.  The ones typed in by the user have no [description]
    and no [isFixed] field; a missing [isFixed] is read as [false]. *)
Module Transaction.
Record t : Type := mk {
  id : string;
  monthKey : string;
  categoryId : string;
  amount : Q;
  description : option string;
  date : string;
  isFixed : bool
}.
End Transaction.

Module Ledger.
Record t : Type := mk { income : Q; rollover : Q; status : string }.
End Ledger.

Inductive View : Type := dashboard | settings | add_transaction.

Record AppState : Type := mkState {
  categories : list Category.t;
  recurringExpenses : list Recurring.t;
  monthlyLedgers : gmap string Ledger.t;
  transactions : list Transaction.t;
  currentDate : Js.Date;
  view : View
}.

(** What a handler reads from outside the state: the [k]-th reading of
    [Date.now()], of [Math.random().toString()] and of
    [new Date().toISOString()] during one run of the handler. *)
Record Env : Type := mkEnv {
  Date_now : nat -> Z;
  Math_random : nat -> string;
  toISOString : nat -> string
}.

(** ** Handlers as state computations *)

Definition Act (A : Type) : Type := AppState -> A * AppState.

#[export] Instance Act_ret : MRet Act := fun A a s => (a, s).

#[export] Instance Act_bind : MBind Act :=
  fun A B f m s => let (a, s') := m s in f a s'.

(** Reading a state variable. *)
Definition read {A : Type} (field : AppState -> A) : Act A :=
  fun s => (field s, s).

Definition setCategories
    (f : list Category.t -> list Category.t) : Act unit :=
  fun s => (tt, mkState (f (categories s)) (recurringExpenses s)
                        (monthlyLedgers s) (transactions s)
                        (currentDate s) (view s)).

Definition setRecurringExpenses
    (f : list Recurring.t -> list Recurring.t) : Act unit :=
  fun s => (tt, mkState (categories s) (f (recurringExpenses s))
                        (monthlyLedgers s) (transactions s)
                        (currentDate s) (view s)).

Definition setMonthlyLedgers
    (f : gmap string Ledger.t -> gmap string Ledger.t) : Act unit :=
  fun s => (tt, mkState (categories s) (recurringExpenses s)
                        (f (monthlyLedgers s)) (transactions s)
                        (currentDate s) (view s)).

Definition setTransactions
    (f : list Transaction.t -> list Transaction.t) : Act unit :=
  fun s => (tt, mkState (categories s) (recurringExpenses s)
                        (monthlyLedgers s) (f (transactions s))
                        (currentDate s) (view s)).

Definition setView (v : View) : Act unit :=
  fun s => (tt, mkState (categories s) (recurringExpenses s)
                        (monthlyLedgers s) (transactions s)
                        (currentDate s) v).

Definition result {A : Type} (m : Act A) (s : AppState) : A := (m s).1.
Definition after {A : Type} (m : Act A) (s : AppState) : AppState := (m s).2.

(** ** Auxiliary variables (lines 85-86) *)

Definition currentMonthKey (s : AppState) : string :=
  getMonthKey (currentDate s).

Definition currentLedger (s : AppState) : option Ledger.t :=
  monthlyLedgers s !! currentMonthKey s.

(** [list.reduce((acc, t) => acc + Number(t.amount), 0)] *)
Definition sumAmounts (l : list Transaction.t) : Q :=
  foldl (fun acc t => (acc + Transaction.amount t)%Q) 0%Q l.

(** ** Services *)

(** 1. [calculateRollover] *)
Definition calculateRollover (targetMonthKey : string) : Act Q :=
  ledgers ← read monthlyLedgers;
  log ← read transactions;
  let prevKey := previousMonthKey targetMonthKey in
  match ledgers !! prevKey with
  | None => mret 0%Q
  | Some prevLedger =>
      let prevExpenses :=
        sumAmounts (filter (fun t => Transaction.monthKey t = prevKey) log) in
      let balance :=
        ((Ledger.income prevLedger + Ledger.rollover prevLedger)
         - prevExpenses)%Q in
      mret (Js.Math_max 0 balance)
  end.

(** [Date.now() + Math.random().toString()], as read for the [i]-th
    template: the clock reading followed by the text of the random number. *)
Definition autoId (env : Env) (i : nat) : string :=
  Js.String_of_int (Date_now env i) ++ Math_random env i.

(** The transaction that [startNewMonth] makes of the [i]-th template. *)
Definition autoTransaction (env : Env) (key : string)
    (i : nat) (model : Recurring.t) : Transaction.t :=
  {| Transaction.id := autoId env i;
     Transaction.monthKey := key;
     Transaction.categoryId := Recurring.categoryId model;
     Transaction.amount := Recurring.amount model;
     Transaction.description :=
       Some (Recurring.name model ++ " (Fixo Recorrente)");
     Transaction.date := toISOString env i;
     Transaction.isFixed := true |}.

(** 2. [startNewMonth] *)
Definition startNewMonth (env : Env) (incomeInput rolloverInput : Q)
    : Act unit :=
  key ← read currentMonthKey;
  models ← read recurringExpenses;
  let newLedger :=
    {| Ledger.income := incomeInput;
       Ledger.rollover := rolloverInput;
       Ledger.status := "OPEN" |} in
  setMonthlyLedgers (fun prev => <[key := newLedger]> prev) ;;
  let autoTransactions := imap (autoTransaction env key) models in
  setTransactions (fun prev => (prev ++ autoTransactions)%list) ;;
  setView dashboard.

(** ** Screen figures (lines 172-184) *)

Definition currentTransactions (s : AppState) : list Transaction.t :=
  filter (fun t => Transaction.monthKey t = currentMonthKey s)
         (transactions s).

Definition getSpentByCategory (s : AppState) (categoryId : string) : Q :=
  sumAmounts
    (filter (fun t => Transaction.categoryId t = categoryId)
            (currentTransactions s)).

Definition totalSpent (s : AppState) : Q :=
  sumAmounts (currentTransactions s).

Definition totalAvailable (s : AppState) : Q :=
  (Js.or_zero (from_option Ledger.income 0 (currentLedger s))
   + Js.or_zero (from_option Ledger.rollover 0 (currentLedger s)))%Q.

Definition remainingBalance (s : AppState) : Q :=
  (totalAvailable s - totalSpent s)%Q.

(** The category cards of the dashboard (lines 449-452). *)
Definition percentage (s : AppState) (cat : Category.t) : Js.JsNum :=
  let spent := getSpentByCategory s (Category.id cat) in
  Js.Math_min (Js.mul_pos (Js.div spent (Category.limit cat)) 100) 100.

Definition isOver (s : AppState) (cat : Category.t) : bool :=
  negb (Qle_bool (getSpentByCategory s (Category.id cat))
                 (Category.limit cat)).

(** Everything a render of the dashboard computes from the state: the
    three header figures and, per category card, the spend, the limit, the
    bar percentage and the over-limit flag. *)
Record CardFigures : Type := mkCard {
  card_category : string;
  card_spent : Q;
  card_limit : Q;
  card_percentage : Js.JsNum;
  card_isOver : bool
}.

Record Figures : Type := mkFigures {
  fig_totalAvailable : Q;
  fig_totalSpent : Q;
  fig_remainingBalance : Q;
  fig_cards : list CardFigures
}.

Definition cardFigures (s : AppState) (cat : Category.t) : CardFigures :=
  {| card_category := Category.id cat;
     card_spent := getSpentByCategory s (Category.id cat);
     card_limit := Category.limit cat;
     card_percentage := percentage s cat;
     card_isOver := isOver s cat |}.

Definition renderFigures : Act Figures :=
  read (fun s =>
    {| fig_totalAvailable := totalAvailable s;
       fig_totalSpent := totalSpent s;
       fig_remainingBalance := remainingBalance s;
       fig_cards := cardFigures s <$> categories s |}).

(** ** User interactions *)

Definition handleCreateCategory (env : Env) (name : string) (limit : Q)
    : Act unit :=
  cats ← read categories;
  let newCat :=
    {| Category.id := Js.String_of_int (Date_now env 0);
       Category.name := name;
       Category.limit := limit |} in
  setCategories (fun _ => (cats ++ [newCat])%list).

Definition handleCreateRecurring (env : Env) (name : string) (amount : Q)
    (category : string) : Act unit :=
  recs ← read recurringExpenses;
  let newRec :=
    {| Recurring.id := Js.String_of_int (Date_now env 0);
       Recurring.name := name;
       Recurring.amount := amount;
       Recurring.categoryId := category |} in
  setRecurringExpenses (fun _ => (recs ++ [newRec])%list).

(** The [onSubmit] of the "Nova Despesa" form (lines 372-383). *)
Definition addTransactionSubmit (env : Env) (category : string) (amount : Q)
    : Act unit :=
  key ← read currentMonthKey;
  log ← read transactions;
  let newTrans :=
    {| Transaction.id := Js.String_of_int (Date_now env 0);
       Transaction.monthKey := key;
       Transaction.categoryId := category;
       Transaction.amount := amount;
       Transaction.description := None;
       Transaction.date := toISOString env 0;
       Transaction.isFixed := false |} in
  setTransactions (fun _ => (log ++ [newTrans])%list) ;;
  setView dashboard.

(** ** Screens (TELAS)

    The component returns one of four screens; a form can only be
    submitted while its screen is the one on display. *)

Inductive Screen : Type :=
| SetupScreen (projectedRollover : Q)
| SettingsScreen
| AddTransactionScreen
| DashboardScreen.

Definition is_settings (v : View) : bool :=
  match v with settings => true | _ => false end.

Definition is_add_transaction (v : View) : bool :=
  match v with add_transaction => true | _ => false end.

Definition screen (s : AppState) : Screen :=
  if negb (bool_decide (is_Some (currentLedger s)))
     && negb (is_settings (view s))
  then SetupScreen (result (calculateRollover (currentMonthKey s)) s)
  else if is_settings (view s) then SettingsScreen
  else if is_add_transaction (view s) then AddTransactionScreen
  else DashboardScreen.

(** A [<select required>] over the categories submits only a non-empty
    value that is one of its options. *)
Definition selectable (s : AppState) (category : string) : bool :=
  bool_decide (category ≠ "")
  && bool_decide (category ∈ Category.id <$> categories s).

Inductive Event : Type :=
| SubmitNewMonth (income : Q)
| SubmitCategory (name : string) (limit : Q)
| SubmitRecurring (name : string) (amount : Q) (category : string)
| SubmitTransaction (category : string) (amount : Q)
| Click (target : View).

(** One user event on the screen on display, once the browser has let it
    through; [None] when the screen has no such control.  What the browser
    checks of a number field before it submits a form is in [Form] below,
    the month buttons and the "Resetar Aplicativo" button are with the
    sessions. *)
Definition dispatch (env : Env) (ev : Event) (s : AppState)
    : option AppState :=
  match screen s, ev with
  | SetupScreen projectedRollover, SubmitNewMonth income =>
      Some (after (startNewMonth env income projectedRollover) s)
  | SettingsScreen, SubmitCategory name limit =>
      Some (after (handleCreateCategory env name limit) s)
  | SettingsScreen, SubmitRecurring name amount category =>
      if selectable s category
      then Some (after (handleCreateRecurring env name amount category) s)
      else None
  | SettingsScreen, Click dashboard => Some (after (setView dashboard) s)
  | AddTransactionScreen, SubmitTransaction category amount =>
      if selectable s category
      then Some (after (addTransactionSubmit env category amount) s)
      else None
  | AddTransactionScreen, Click dashboard =>
      Some (after (setView dashboard) s)
  | DashboardScreen, Click settings => Some (after (setView settings) s)
  | DashboardScreen, Click add_transaction =>
      match categories s with
      | [] => None
      | _ :: _ => Some (after (setView add_transaction) s)
      end
  | _, _ => None
  end.

(** ** Number fields

    Every amount is typed into an [<input type="number" required>] and no
    form of the page sets [noValidate], so the browser checks the field
    before it submits the form: by the rules of HTML the text has to be a
    number that a double can hold and a whole multiple of the step of the
    field, counted from 0.
    The step is 0.01 in the expense form ([step="0.01"]) and, where the
    field names none, 1: in the setup form, the category form and the
    template form.  No field has a [min] or a [max]. *)

Module Form.

(** [value] is a whole multiple of [step], for a positive [step]. *)
Definition stepAligned (step value : Q) : bool :=
  let ratio := (value / step)%Q in
  Qnum ratio mod Z.pos (Qden ratio) =? 0.

(** A text whose value rounds to 2^1024 in magnitude is no number for the
    field: the values below are those nearer to the largest double. *)
Definition maxMagnitude : Q := inject_Z (2 ^ 1024 - 2 ^ 970).

Definition inRange (value : Q) : bool :=
  negb (Qle_bool maxMagnitude (Qabs value)).

Definition accepts (step value : Q) : bool :=
  inRange value && stepAligned step value.

End Form.


(** The expense form as the browser submits it: the amount field has step
    0.01. *)
Definition submitExpenseForm (env : Env) (category : string) (amount : Q)
    (s : AppState) : option AppState :=
  if Form.accepts (1 # 100) amount
  then dispatch env (SubmitTransaction category amount) s
  else None.

(** ** Invariants of the registries

    A category id is registered when a category carries it; the state is
    well referenced when every transaction and every recurring template
    is filed under a registered category. *)

Definition registered (s : AppState) (category : string) : Prop :=
  category ∈ Category.id <$> categories s.

Definition wellReferenced (s : AppState) : Prop :=
  Forall (fun t => registered s (Transaction.categoryId t)) (transactions s)
  ∧ Forall (fun r => registered s (Recurring.categoryId r))
           (recurringExpenses s).

(** ** Sums used to state the properties *)

Definition Qsum (l : list Q) : Q := foldr Qplus 0%Q l.

(** The amounts of the transactions tagged with [key]. *)
Definition amountsOfMonth (key : string) (log : list Transaction.t) : list Q :=
  Transaction.amount <$>
    filter (fun t => Transaction.monthKey t = key) log.


(** ** A worked scenario: October 2025, two templates on one category *)

Module Scenario.

Definition env : Env :=
  {| Date_now := fun _ => 1761955200000;
     Math_random := fun i => "0." ++ Js.String_of_int (Z.of_nat (S i));
     toISOString := fun _ => "2025-11-01T00:00:00.000Z" |}.

Definition housing : Category.t :=
  {| Category.id := "1759276800000";
     Category.name := "Moradia";
     Category.limit := 2500 |}.

Definition rent : Recurring.t :=
  {| Recurring.id := "1759276800001";
     Recurring.name := "Aluguel";
     Recurring.amount := 1200;
     Recurring.categoryId := "1759276800000" |}.

Definition condo : Recurring.t :=
  {| Recurring.id := "1759276800002";
     Recurring.name := "Condominio";
     Recurring.amount := 1200;
     Recurring.categoryId := "1759276800000" |}.

(** Nothing opened yet; the month in view is October 2025. *)
Definition fresh : AppState :=
  {| categories := [housing];
     recurringExpenses := [rent; condo];
     monthlyLedgers := ∅;
     transactions := [];
     currentDate := Js.ValidDate 2025 9;
     view := dashboard |}.

(** October opened with an income of 3000 and no rollover. *)
Definition opened : AppState := after (startNewMonth env 3000 0) fresh.

(** The same, with the "Nova Despesa" form on display. *)
Definition adding : AppState := after (setView add_transaction) opened.

(** A second category, and October with two purchases in it and one
    purchase filed under another month. *)
Definition market : Category.t :=
  {| Category.id := "1759276800003";
     Category.name := "Mercado";
     Category.limit := 200 |}.

Definition purchase (id : string) (key : string) (amount : Q)
    : Transaction.t :=
  {| Transaction.id := id;
     Transaction.monthKey := key;
     Transaction.categoryId := "1759276800003";
     Transaction.amount := amount;
     Transaction.description := None;
     Transaction.date := "2025-10-15T12:00:00.000Z";
     Transaction.isFixed := false |}.

Definition spending : AppState :=
  {| categories := [housing; market];
     recurringExpenses := [rent; condo];
     monthlyLedgers := monthlyLedgers opened;
     transactions :=
       transactions opened
       ++ [purchase "1760529600000" "2025-10" 100;
           purchase "1760529600001" "2025-09" 40;
           purchase "1760529600002" "2025-10" 150];
     currentDate := Js.ValidDate 2025 9;
     view := dashboard |}.

(** October with one more purchase, larger than what was left. *)
Definition overspent : AppState :=
  after (addTransactionSubmit env "1759276800003" 1000) adding.

(** A category created with limit 0, in which nothing was spent. *)
Definition reserve : Category.t :=
  {| Category.id := "1759276800004";
     Category.name := "Reserva";
     Category.limit := 0 |}.

Definition with_reserve : AppState :=
  {| categories := [housing; market; reserve];
     recurringExpenses := recurringExpenses spending;
     monthlyLedgers := monthlyLedgers spending;
     transactions := transactions spending;
     currentDate := currentDate spending;
     view := dashboard |}.

(** A clock and a random generator that give the same reading at every
    call. *)
Definition stuck : Env :=
  {| Date_now := fun _ => 1761955200000;
     Math_random := fun _ => "0.5";
     toISOString := fun _ => "2025-11-01T00:00:00.000Z" |}.

End Scenario.

(** ** Month navigation (lines 188-194)

    [handleMonthChange] copies [currentDate] and calls [setMonth] on the
    copy, which keeps the day of the month; the state record above holds
    the year and the month only, so a session pairs it with that day. *)

Module Calendar.

Definition isLeapYear (year : Z) : bool :=
  (year mod 4 =? 0) && (negb (year mod 100 =? 0) || (year mod 400 =? 0)).

(** The number of days of month [month] (0..11) of [year]. *)
Definition daysInMonth (year month : Z) : Z :=
  if month =? 1 then (if isLeapYear year then 29 else 28)
  else if (month =? 3) || (month =? 5) || (month =? 8) || (month =? 10)
       then 30
       else 31.

(** Months since year 0 of a valid date. *)
Definition monthIndex (year month : Z) : Z := year * 12 + month.

(** [date.setMonth(month)] on a date whose day of the month is [day] (1 to
    31): the date becomes day [day] of the month reached, counted from the
    first of that month, so a day that the month does not have runs over
    into the month after.  A month outside the range of dates gives an
    invalid date.  (Time of day and time zone are not modelled; of the two
    months cut by the ends of the range no day is taken as a date.) *)
Definition setMonth (date : Js.Date) (day : Z) (month : Z) : Js.Date * Z :=
  match date with
  | Js.InvalidDate => (Js.InvalidDate, day)
  | Js.ValidDate fullYear _ =>
      let target := monthIndex fullYear month in
      let length := daysInMonth (target / 12) (target mod 12) in
      let reached := if day <=? length then target else target + 1 in
      let day' := if day <=? length then day else day - length in
      if (Js.minMonths <=? reached) && (reached <? Js.maxMonths)
      then (Js.ValidDate (reached / 12) (reached mod 12), day')
      else (Js.InvalidDate, day)
  end.

(** A date is well formed when its month is one of the twelve and its day
    one of the days of that month. *)
Definition wellFormed (date : Js.Date) (day : Z) : Prop :=
  match date with
  | Js.ValidDate fullYear month =>
      0 <= month <= 11 ∧ 1 <= day <= daysInMonth fullYear month
  | Js.InvalidDate => True
  end.

End Calendar.

Record Session : Type := mkSession {
  app : AppState;
  dayOfMonth : Z
}.

Definition setCurrentDate (f : Js.Date -> Js.Date) : Act unit :=
  fun s => (tt, mkState (categories s) (recurringExpenses s)
                        (monthlyLedgers s) (transactions s)
                        (f (currentDate s)) (view s)).

(** [handleMonthChange(direction)] *)
Definition handleMonthChange (direction : Z) (ss : Session) : Session :=
  match currentDate (app ss) with
  | Js.ValidDate _ month =>
      let (newDate, day) :=
        Calendar.setMonth (currentDate (app ss)) (dayOfMonth ss)
                          (month + direction) in
      {| app := after (setCurrentDate (fun _ => newDate)) (app ss);
         dayOfMonth := day |}
  | Js.InvalidDate => ss
  end.

(** The two month buttons: [handleMonthChange(-1)] and
    [handleMonthChange(1)]. *)
Inductive MonthButton : Type := PreviousMonth | NextMonth.

Definition direction (b : MonthButton) : Z :=
  match b with PreviousMonth => -1 | NextMonth => 1 end.

(** What can happen in a session: a form or view event of the page, or a
    press of a month button.  The month buttons stand on the dashboard
    (both) and on the setup screen (back only); here a month button may be
    pressed on any screen, which only adds runs. *)
Inductive PageEvent : Type :=
| FormEvent (env : Env) (ev : Event)
| MonthClick (b : MonthButton).

Definition pageStep (pe : PageEvent) (ss : Session) : option Session :=
  match pe with
  | FormEvent env ev =>
      (fun s' => mkSession s' (dayOfMonth ss)) <$> dispatch env ev (app ss)
  | MonthClick b => Some (handleMonthChange (direction b) ss)
  end.

(** A run of events; an event the page does not accept changes nothing. *)
Fixpoint run (trace : list PageEvent) (ss : Session) : Session :=
  match trace with
  | [] => ss
  | pe :: rest => run rest (default ss (pageStep pe ss))
  end.

(** The state of a first run, before anything was saved: the four
    collections empty, the dashboard as view, today as date. *)
Definition firstRun (today : Js.Date) (day : Z) : Session :=
  {| app := {| categories := [];
               recurringExpenses := [];
               monthlyLedgers := ∅;
               transactions := [];
               currentDate := today;
               view := dashboard |};
     dayOfMonth := day |}.

(** Every transaction is tagged with a month that has a ledger. *)
Definition monthsOpened (s : AppState) : Prop :=
  Forall (fun t => is_Some (monthlyLedgers s !! Transaction.monthKey t))
         (transactions s).


(** ** The reset button (lines 351-359)

    "Resetar Aplicativo" stands on the settings screen.  Once the question
    it asks is confirmed it clears the storage and loads the page again,
    which then shows a first run at the date of that moment. *)

Inductive SessionEvent : Type :=
| OnPage (pe : PageEvent)
| ResetClick (today : Js.Date) (day : Z).

Definition isReset (ev : SessionEvent) : bool :=
  match ev with
  | OnPage _ => false
  | ResetClick _ _ => true
  end.

Definition sessionStep (ev : SessionEvent) (ss : Session) : option Session :=
  match ev with
  | OnPage pe => pageStep pe ss
  | ResetClick today day =>
      match screen (app ss) with
      | SettingsScreen => Some (firstRun today day)
      | _ => None
      end
  end.

(** A run of events, the reset button among them. *)
Fixpoint runSession (trace : list SessionEvent) (ss : Session) : Session :=
  match trace with
  | [] => ss
  | ev :: rest => runSession rest (default ss (sessionStep ev ss))
  end.

(** ** A session in which two categories get one id

    October 2025 is opened, two categories are created while the clock
    shows the same millisecond, and 10 is spent in the category both ids
    name. *)
Definition twoCategoriesOneId : list PageEvent :=
  [ FormEvent Scenario.stuck (SubmitNewMonth 3000);
    FormEvent Scenario.stuck (Click settings);
    FormEvent Scenario.stuck (SubmitCategory "Mercado" 500);
    FormEvent Scenario.stuck (SubmitCategory "Feira" 300);
    FormEvent Scenario.stuck (Click dashboard);
    FormEvent Scenario.stuck (Click add_transaction);
    FormEvent Scenario.stuck (SubmitTransaction "1761955200000" 10) ].

(** ** A session with amounts of 1e308

    September 2025 is opened with an income of 1e308, two recurring
    templates of 1e308 are registered, and October is opened with an income
    of 1e308 again.  Every field of these forms has the default step, and
    1e308 is a whole number that a double can hold. *)
Definition tenTo308 : Q := inject_Z (10 ^ 308).

Definition overflowSession : list PageEvent :=
  [ FormEvent Scenario.env (SubmitNewMonth tenTo308);
    FormEvent Scenario.env (Click settings);
    FormEvent Scenario.env (SubmitCategory "Moradia" 2500);
    FormEvent Scenario.env
      (SubmitRecurring "Aluguel" tenTo308 "1761955200000");
    FormEvent Scenario.env
      (SubmitRecurring "Condominio" tenTo308 "1761955200000");
    FormEvent Scenario.env (Click dashboard);
    MonthClick NextMonth;
    FormEvent Scenario.env (SubmitNewMonth tenTo308) ].

(** ** The figures on doubles

    The numbers of the code are IEEE 754 doubles: a sum rounds at every
    addition and overflows to [Infinity], and [Infinity - Infinity] is
    [NaN].  The computations of [calculateRollover] and of the screen
    figures are repeated here on doubles, with the variables of the
    component that they read (the ledgers, the log, the key of the month in
    view) as arguments.  Of a ledger and of a transaction only the fields
    that the figures read are kept. *)

Module Dbl.

Import PrimFloat.

#[local] Set Warnings "-inexact-float".
#[local] Open Scope float_scope.

Record Ledger : Type := mkLedger { income : float; rollover : float }.

Record Transaction : Type := mkTransaction {
  monthKey : string;
  categoryId : string;
  amount : float
}.

(** [list.reduce((acc, t) => acc + Number(t.amount), 0)] *)
Definition sumAmounts (l : list Transaction) : float :=
  foldl (fun acc t => acc + amount t) 0 l.

(** [Math.max(0, x)]: [NaN] when [x] is [NaN], else the larger of the
    two. *)
Definition Math_max_zero (x : float) : float :=
  if is_nan x then nan else if 0 <? x then x else 0.

(** [x || 0]: [0], [-0] and [NaN] are the falsy numbers. *)
Definition or_zero (x : float) : float :=
  if is_nan x || (x =? 0) then 0 else x.

Definition calculateRollover (monthlyLedgers : gmap string Ledger)
    (transactions : list Transaction) (targetMonthKey : string) : float :=
  let prevKey := previousMonthKey targetMonthKey in
  match monthlyLedgers !! prevKey with
  | None => 0
  | Some prevLedger =>
      let prevExpenses :=
        sumAmounts (filter (fun t => monthKey t = prevKey) transactions) in
      let balance := (income prevLedger + rollover prevLedger) - prevExpenses in
      Math_max_zero balance
  end.

Definition currentTransactions (transactions : list Transaction)
    (currentMonthKey : string) : list Transaction :=
  filter (fun t => monthKey t = currentMonthKey) transactions.

Definition getSpentByCategory (transactions : list Transaction)
    (currentMonthKey : string) (category : string) : float :=
  sumAmounts
    (filter (fun t => categoryId t = category)
            (currentTransactions transactions currentMonthKey)).

Definition totalSpent (transactions : list Transaction)
    (currentMonthKey : string) : float :=
  sumAmounts (currentTransactions transactions currentMonthKey).

Definition totalAvailable (monthlyLedgers : gmap string Ledger)
    (currentMonthKey : string) : float :=
  or_zero (from_option income 0 (monthlyLedgers !! currentMonthKey))
  + or_zero (from_option rollover 0 (monthlyLedgers !! currentMonthKey)).

Definition remainingBalance (monthlyLedgers : gmap string Ledger)
    (transactions : list Transaction) (currentMonthKey : string) : float :=
  totalAvailable monthlyLedgers currentMonthKey
  - totalSpent transactions currentMonthKey.

(** What was spent in each category of a list, added up category after
    category. *)
Definition spentOverCategories (categoryIds : list string)
    (transactions : list Transaction) (currentMonthKey : string) : float :=
  foldl (fun acc category =>
           acc + getSpentByCategory transactions currentMonthKey category)
        0 categoryIds.

(** October 2025 opened with an income of 1e308 on top of 1e308 carried
    over from September, and the two automated expenses of 1e308 that two
    recurring templates put in it. *)
Definition overflowLedgers : gmap string Ledger :=
  {[ "2025-10" := mkLedger 1e308 1e308 ]}.

Definition overflowLog : list Transaction :=
  [ mkTransaction "2025-10" "1759276800000" 1e308;
    mkTransaction "2025-10" "1759276800000" 1e308 ].

(** Three purchases of October 2025: 0.30 and 0.10 in one category, 0.20
    in another. *)
Definition centsLog : list Transaction :=
  [ mkTransaction "2025-10" "1759276800000" 0.3;
    mkTransaction "2025-10" "1759276800003" 0.2;
    mkTransaction "2025-10" "1759276800000" 0.1 ].

(** October 2025 as in the worked scenario: income 3000, nothing carried
    over, 2650 spent in October and 40 in September. *)
Definition octoberLedgers : gmap string Ledger :=
  {[ "2025-10" := mkLedger 3000 0 ]}.

Definition octoberLog : list Transaction :=
  [ mkTransaction "2025-10" "1759276800000" 1200;
    mkTransaction "2025-10" "1759276800000" 1200;
    mkTransaction "2025-10" "1759276800003" 100;
    mkTransaction "2025-09" "1759276800003" 40;
    mkTransaction "2025-10" "1759276800003" 150 ].

(** The same with a purchase of 1000 more. *)
Definition overspentLog : list Transaction :=
  (octoberLog ++ [ mkTransaction "2025-10" "1759276800003" 1000 ])%list.

Definition threeHundredFifty : float := 350.

Definition sixTenths : float := 0.6.
Definition sixTenthsAndOneUlp : float := 0.6000000000000001.

End Dbl.

(** Evaluation of the closed decimal conversions and divisions that show
    up once a month number is fixed. *)
Ltac eval_closed :=
  repeat match goal with
    | |- context [Z.of_uint ?d] =>
        let v := eval vm_compute in (Z.of_uint d) in
        change (Z.of_uint d) with v
    | |- context [Z.div ?a ?b] =>
        let v := eval vm_compute in (Z.div a b) in
        change (Z.div a b) with v
    end.

(* ====================================================================== *)
(** * Properties *)
(* ====================================================================== *)

(** ** Sums of amounts *)

Section Sums.

#[local] Open Scope Q_scope.

Lemma foldl_amounts_acc (l : list Transaction.t) (a : Q) :
  foldl (fun acc t => acc + Transaction.amount t) a l
  == a + Qsum (Transaction.amount <$> l).
Proof.
  revert a. induction l as [|t l IH]; intros a.
  - cbn [foldl fmap list_fmap Qsum foldr]. lra.
  - cbn [foldl fmap list_fmap Qsum foldr]. rewrite IH.
    fold (Qsum (Transaction.amount <$> l)). lra.
Qed.

Lemma sumAmounts_Qsum (l : list Transaction.t) :
  sumAmounts l == Qsum (Transaction.amount <$> l).
Proof. unfold sumAmounts. rewrite foldl_amounts_acc. lra. Qed.


Lemma sumAmounts_cons (t : Transaction.t) (l : list Transaction.t) :
  sumAmounts (t :: l) == Transaction.amount t + sumAmounts l.
Proof.
  rewrite !sumAmounts_Qsum. cbn [fmap list_fmap Qsum foldr].
  fold (Qsum (Transaction.amount <$> l)). lra.
Qed.


Lemma Math_max_nonneg (b : Q) : 0 <= Js.Math_max 0 b.
Proof.
  unfold Js.Math_max. destruct (Qle_bool 0 b) eqn:E.
  - now apply Qle_bool_iff.
  - lra.
Qed.

End Sums.

(** ** The key of the previous month *)

Section MonthKeys.

Lemma Number_String_of_int (n : Z) :
  0 <= n → Js.Number (Js.String_of_int n) = Some n.
Proof.
  intros Hn. unfold Js.Number, Js.String_of_int.
  destruct n as [|p|p]; [reflexivity| |lia].
  cbn [Z.to_int NilZero.string_of_int].
  assert (Hnil : Pos.to_uint p ≠ Decimal.Nil)
    by apply DecimalPos.Unsigned.to_uint_nonnil.
  assert (Hs : NilZero.string_of_uint (Pos.to_uint p)
               = NilEmpty.string_of_uint (Pos.to_uint p))
    by (destruct (Pos.to_uint p); [contradiction|reflexivity..]).
  rewrite Hs, NilEmpty.usu. f_equal.
  unfold Z.of_uint. now rewrite DecimalPos.Unsigned.of_to.
Qed.

Lemma append_String (c : ascii) (s t : string) :
  String c s ++ t = String c (s ++ t).
Proof. reflexivity. Qed.

Lemma split_digits (d : Decimal.uint) (rest : string) :
  Js.split "-" (NilEmpty.string_of_uint d ++ String "-" rest)
  = NilEmpty.string_of_uint d :: Js.split "-" rest.
Proof.
  induction d; cbn [NilEmpty.string_of_uint];
    [reflexivity | rewrite append_String; simpl; now rewrite IHd ..].
Qed.

Lemma split_String_of_int (n : Z) (rest : string) :
  0 <= n →
  Js.split "-" (Js.String_of_int n ++ String "-" rest)
  = Js.String_of_int n :: Js.split "-" rest.
Proof.
  intros Hn. unfold Js.String_of_int.
  destruct n as [|p|p]; [reflexivity| |lia].
  cbn [Z.to_int NilZero.string_of_int].
  assert (Hnil : Pos.to_uint p ≠ Decimal.Nil)
    by apply DecimalPos.Unsigned.to_uint_nonnil.
  assert (Hs : NilZero.string_of_uint (Pos.to_uint p)
               = NilEmpty.string_of_uint (Pos.to_uint p))
    by (destruct (Pos.to_uint p); [contradiction|reflexivity..]).
  rewrite Hs. apply split_digits.
Qed.

(** [new Date(year, monthIndex)] carries any month index into the year,
    for a year outside 0..99 and a month within the range of dates. *)
Lemma newDate_carry (year monthIndex : Z) :
  ¬ (0 <= year <= 99) →
  Js.minMonths <= year * 12 + monthIndex <= Js.maxMonths →
  Js.newDate (Some year) (Some monthIndex)
  = Js.ValidDate (year + monthIndex / 12) (monthIndex mod 12).
Proof.
  intros Hy Hrange. unfold Js.newDate.
  replace ((0 <=? year) && (year <=? 99)) with false
    by (symmetry; apply andb_false_iff; lia).
  cbv zeta.
  replace ((Js.minMonths <=? year * 12 + monthIndex)
           && (year * 12 + monthIndex <=? Js.maxMonths)) with true
    by (symmetry; apply andb_true_iff; lia).
  rewrite (Z.add_comm (year * 12) monthIndex).
  rewrite Z.div_add, Z.mod_add by lia. f_equal. lia.
Qed.

Lemma month_cases (m : Z) :
  1 <= m <= 12 →
  m = 1 ∨ m = 2 ∨ m = 3 ∨ m = 4 ∨ m = 5 ∨ m = 6
  ∨ m = 7 ∨ m = 8 ∨ m = 9 ∨ m = 10 ∨ m = 11 ∨ m = 12.
Proof. lia. Qed.

Lemma previousMonthKey_calendar (year month : Z) :
  100 <= year <= 275759 → 1 <= month <= 12 →
  previousMonthKey (monthKeyOf year month)
  = if month =? 1 then monthKeyOf (year - 1) 12
    else monthKeyOf year (month - 1).
Proof.
  intros Hy Hm.
  assert (Hkey : ∀ mm : string,
            previousMonthKey (Js.String_of_int year ++ String "-" mm)
            = getMonthKey
                (Js.newDate (Some year)
                   ((fun m => m - 2)
                      <$> mjoin ((Js.Number <$> Js.split "-" mm) !! 0%nat)))).
  { intros mm. unfold previousMonthKey.
    rewrite split_String_of_int by lia.
    cbn [fmap list_fmap lookup list_lookup mjoin option_join].
    now rewrite Number_String_of_int by lia. }
  unfold monthKeyOf at 1. unfold getMonthKey at 1.
  destruct (month_cases month Hm)
    as [->|[->|[->|[->|[->|[->|[->|[->|[->|[->|[->| ->]]]]]]]]]]];
    cbn [Z.sub Z.add Z.opp Z.pos_sub Pos.add Pos.succ Pos.pred_double
         Z.eqb Pos.eqb];
    (etransitivity; [apply Hkey|]);
    cbn [Js.split fmap list_fmap option_fmap option_map
         lookup list_lookup mjoin option_join];
    (etransitivity;
       [apply f_equal, newDate_carry;
        eval_closed; unfold Js.minMonths, Js.maxMonths; lia|]);
    unfold monthKeyOf; cbv beta; eval_closed;
    f_equal; f_equal; solve [lia | reflexivity].
Qed.

Lemma fourDigits_years :
  forallb (fun y => fourDigits (Js.String_of_int y)) (seqZ 1000 9000) = true.
Proof. vm_compute. reflexivity. Qed.

Lemma fourDigits_String_of_int (year : Z) :
  1000 <= year <= 9999 → fourDigits (Js.String_of_int year) = true.
Proof.
  intros Hy. pose proof fourDigits_years as H.
  rewrite forallb_forall in H. apply H.
  apply list_elem_of_In, elem_of_seqZ. lia.
Qed.

Lemma canonicalMonthKey_year (yyyy mm : string) :
  fourDigits yyyy = true →
  canonicalMonthKey (yyyy ++ "-" ++ mm) = canonicalMonthKey ("2000-" ++ mm).
Proof.
  intros H.
  destruct yyyy as [|a [|b [|c [|d [|e r]]]]]; try discriminate H.
  cbn [fourDigits] in H.
  apply andb_true_iff in H as [H Hd]. apply andb_true_iff in H as [H Hc].
  apply andb_true_iff in H as [Ha Hb].
  rewrite !append_String.
  change ("" ++ String "-" ("" ++ mm)) with (String "-" mm).
  change ("2000-" ++ mm)
    with (String "2" (String "0" (String "0" (String "0" (String "-" mm))))).
  unfold canonicalMonthKey.
  destruct mm as [|m1 [|m2 [|m3 r]]]; try reflexivity.
  now rewrite Ha, Hb, Hc, Hd.
Qed.

Lemma monthKeyOf_canonical (year month : Z) :
  1000 <= year <= 9999 → 1 <= month <= 12 →
  canonicalMonthKey (monthKeyOf year month) = true.
Proof.
  intros Hy Hm. unfold monthKeyOf, getMonthKey.
  rewrite canonicalMonthKey_year by now apply fourDigits_String_of_int.
  destruct (month_cases month Hm)
    as [->|[->|[->|[->|[->|[->|[->|[->|[->|[->|[->| ->]]]]]]]]]]];
    vm_compute; reflexivity.
Qed.

(** C6.  For a month key whose year has four digits and is after 1000
    (so that the year before has four digits too): the previous-month key
    that [calculateRollover] derives for January of year y is December of
    year y - 1, and for any other month it is the month before in the same
    year; the derived key is in the form "YYYY-MM".  More generally the
    [Date] constructor the derivation relies on carries any offset of n
    months, negative or not, into the year, as long as the month reached
    is within the range of dates. *)
Theorem previousMonthKey_year_rollover (year : Z) :
  1000 < year <= 9999 →
  previousMonthKey (monthKeyOf year 1) = monthKeyOf (year - 1) 12
  ∧ monthKeyOf (year - 1) 12 = Js.String_of_int (year - 1) ++ "-12"
  ∧ canonicalMonthKey (previousMonthKey (monthKeyOf year 1)) = true
  ∧ (∀ month : Z,
       1 < month <= 12 →
       previousMonthKey (monthKeyOf year month) = monthKeyOf year (month - 1)
       ∧ canonicalMonthKey (previousMonthKey (monthKeyOf year month)) = true)
  ∧ (∀ month n : Z,
       Js.minMonths <= year * 12 + (month - 1 + n) <= Js.maxMonths →
       getMonthKey (Js.newDate (Some year) (Some (month - 1 + n)))
       = monthKeyOf (year + (month - 1 + n) / 12)
                    ((month - 1 + n) mod 12 + 1)).
Proof.
  intros Hy.
  assert (HJan : previousMonthKey (monthKeyOf year 1)
                 = monthKeyOf (year - 1) 12)
    by (rewrite previousMonthKey_calendar by lia; reflexivity).
  split; [exact HJan|]. split; [reflexivity|]. split; [|split].
  - rewrite HJan. apply monthKeyOf_canonical; lia.
  - intros month Hm.
    assert (H : previousMonthKey (monthKeyOf year month)
                = monthKeyOf year (month - 1)).
    { rewrite previousMonthKey_calendar by lia.
      destruct (Z.eqb_spec month 1); [lia | reflexivity]. }
    split; [exact H|]. rewrite H. apply monthKeyOf_canonical; lia.
  - intros month n Hrange. rewrite newDate_carry by (lia || exact Hrange).
    unfold monthKeyOf. do 2 f_equal. lia.
Qed.

Lemma previousMonthKey_year_rollover_witness :
  previousMonthKey "2026-01" = "2025-12"
  ∧ canonicalMonthKey "2025-12" = true
  ∧ previousMonthKey "2026-03" = "2026-02".
Proof.
  destruct (previousMonthKey_year_rollover 2026 ltac:(lia))
    as (HJan & _ & Hcanon & Hother & _).
  split; [exact HJan|]. split; [exact Hcanon|].
  exact (proj1 (Hother 3 ltac:(lia))).
Defined.

(** Outside that range the year is written as it is, without padding, and
    a year from 0 to 99 is read by [Date] as 1900 + year. *)
Example previousMonthKey_year_1000 : previousMonthKey "1000-01" = "999-12".
Proof. reflexivity. Qed.

Example previousMonthKey_year_0050 : previousMonthKey "0050-01" = "1949-12".
Proof. reflexivity. Qed.

(** The key of a date, written out. *)
Lemma getMonthKey_text (year month : Z) :
  0 <= month <= 11 →
  getMonthKey (Js.ValidDate year month) = monthKeyText year month.
Proof.
  intros Hm. unfold getMonthKey, monthKeyText.
  assert (Hcases : month = 0 ∨ month = 1 ∨ month = 2 ∨ month = 3
                   ∨ month = 4 ∨ month = 5 ∨ month = 6 ∨ month = 7
                   ∨ month = 8 ∨ month = 9 ∨ month = 10 ∨ month = 11) by lia.
  destruct Hcases
    as [->|[->|[->|[->|[->|[->|[->|[->|[->|[->|[->| ->]]]]]]]]]]];
    reflexivity.
Qed.

(** The key that [calculateRollover] derives from the key of a month, both
    written out. *)
Lemma previousMonthKey_text (year month : Z) :
  100 <= year <= 275759 → 0 <= month <= 11 →
  previousMonthKey (monthKeyText year month)
  = if month =? 0 then monthKeyText (year - 1) 11
    else monthKeyText year (month - 1).
Proof.
  intros Hy Hm. rewrite <- getMonthKey_text by exact Hm.
  replace (Js.ValidDate year month)
    with (Js.ValidDate year (month + 1 - 1)) by (f_equal; lia).
  fold (monthKeyOf year (month + 1)).
  rewrite previousMonthKey_calendar by lia.
  destruct (Z.eqb_spec month 0) as [->|Hne].
  - cbn [Z.add Z.eqb Pos.add Pos.eqb]. unfold monthKeyOf.
    now rewrite getMonthKey_text by lia.
  - destruct (Z.eqb_spec (month + 1) 1); [lia|].
    unfold monthKeyOf. rewrite getMonthKey_text by lia.
    f_equal. lia.
Qed.

End MonthKeys.

(** ** The rollover *)

Section Rollover.

#[local] Open Scope Q_scope.

(** [Math.max(0, x)] on doubles: [NaN] when [x] is [NaN], [x] when [x] is
    positive (which [Infinity] is), and 0 otherwise. *)
Lemma Math_max_zero_cases (x : PrimFloat.float) :
  (PrimFloat.is_nan x = true ∧ Dbl.Math_max_zero x = PrimFloat.nan)
  ∨ (PrimFloat.is_nan x = false
     ∧ ((PrimFloat.ltb PrimFloat.zero x = true ∧ Dbl.Math_max_zero x = x)
        ∨ (PrimFloat.ltb PrimFloat.zero x = false
           ∧ Dbl.Math_max_zero x = PrimFloat.zero))).
Proof.
  unfold Dbl.Math_max_zero, PrimFloat.zero.
  destruct (PrimFloat.is_nan x); [left; now split|right].
  split; [reflexivity|].
  destruct (PrimFloat.ltb _ x); [left|right]; now split.
Qed.

(** C1.  On the doubles of the code, for the target month [month] of a year
    from 100 on, with [prevKey] the key "YYYY-MM" of the calendar month
    before: the rollover is 0 when the ledgers hold nothing under
    [prevKey], and otherwise it is [Math.max(0, balance)] for the balance
    (income + rollover of that ledger) minus the sum, added up from the
    left, of the amounts of the transactions tagged [prevKey].  For every
    state the result is [NaN], zero or positive.  It is not always
    non-negative: with a ledger of income 1e308 and rollover 1e308 for
    October 2025 and two expenses of 1e308 in that month, both sums are
    [Infinity], the balance is [NaN], and the rollover for November 2025 is
    [NaN], which is not larger than or equal to 0.  (With 3000 of income
    and 2650 spent in October the rollover is 350, and with 1000 more spent
    it is 0.) *)
Theorem calculateRollover_overflow :
  (∀ (ledgers : gmap string Dbl.Ledger) (log : list Dbl.Transaction)
     (year month : Z),
     (100 <= year <= 275759)%Z → (0 <= month <= 11)%Z →
     let prevKey := if (month =? 0)%Z then monthKeyText (year - 1) 11
                    else monthKeyText year (month - 1) in
     Dbl.calculateRollover ledgers log (monthKeyText year month)
     = match ledgers !! prevKey with
       | None => PrimFloat.zero
       | Some prevLedger =>
           Dbl.Math_max_zero
             (PrimFloat.sub
                (PrimFloat.add (Dbl.income prevLedger)
                               (Dbl.rollover prevLedger))
                (foldl (fun acc t => PrimFloat.add acc (Dbl.amount t))
                       PrimFloat.zero
                       (filter (fun t => Dbl.monthKey t = prevKey) log)))
       end)
  ∧ (∀ (ledgers : gmap string Dbl.Ledger) (log : list Dbl.Transaction)
       (targetMonthKey : string),
       let r := Dbl.calculateRollover ledgers log targetMonthKey in
       r = PrimFloat.nan ∨ r = PrimFloat.zero
       ∨ PrimFloat.ltb PrimFloat.zero r = true)
  ∧ Dbl.calculateRollover Dbl.overflowLedgers Dbl.overflowLog "2025-11"
    = PrimFloat.nan
  ∧ PrimFloat.leb PrimFloat.zero
      (Dbl.calculateRollover Dbl.overflowLedgers Dbl.overflowLog "2025-11")
    = false
  ∧ Dbl.calculateRollover Dbl.octoberLedgers Dbl.octoberLog "2025-11"
    = Dbl.threeHundredFifty
  ∧ Dbl.calculateRollover Dbl.octoberLedgers Dbl.overspentLog "2025-11"
    = PrimFloat.zero.
Proof.
  split; [|split; [|repeat split; vm_compute; reflexivity]].
  - intros ledgers log year month Hy Hm prevKey.
    unfold Dbl.calculateRollover.
    rewrite previousMonthKey_text by assumption. fold prevKey.
    destruct (ledgers !! prevKey) as [prevLedger|]; reflexivity.
  - intros ledgers log targetMonthKey r. subst r.
    unfold Dbl.calculateRollover.
    destruct (ledgers !! previousMonthKey targetMonthKey) as [prevLedger|];
      [|right; left; reflexivity].
    match goal with
    | |- context [Dbl.Math_max_zero ?x] =>
        destruct (Math_max_zero_cases x)
          as [[_ ->]|[_ [[Hpos Hx]|[_ ->]]]]
    end.
    + now left.
    + right. right. now rewrite Hx.
    + right. now left.
Qed.

(** The state in which the rollover is [NaN] is one the page reaches: the
    number fields take 1e308, and after [overflowSession] October 2025 has
    a ledger with income 1e308 and rollover 1e308 and two transactions of
    1e308. *)
Example overflow_state_reached :
  Form.accepts 1 tenTo308 = true
  ∧ (∃ ledger : Ledger.t,
       monthlyLedgers
         (app (run overflowSession (firstRun (Js.ValidDate 2025 8) 15)))
         !! "2025-10" = Some ledger
       ∧ Ledger.income ledger == tenTo308
       ∧ Ledger.rollover ledger == tenTo308)
  ∧ amountsOfMonth "2025-10"
      (transactions
         (app (run overflowSession (firstRun (Js.ValidDate 2025 8) 15))))
    = [tenTo308; tenTo308].
Proof.
  split; [vm_compute; reflexivity|]. split.
  - eexists. split; [vm_compute; reflexivity|].
    split; vm_compute; reflexivity.
  - vm_compute. reflexivity.
Qed.

End Rollover.

(** ** The screen figures *)

Section Figures.

#[local] Open Scope Q_scope.




End Figures.

(** ** Reads and writes *)

Section Effects.

Lemma calculateRollover_reads (targetMonthKey : string) (s : AppState) :
  calculateRollover targetMonthKey s
  = (result (calculateRollover targetMonthKey) s, s).
Proof.
  unfold result, calculateRollover, read, mbind, Act_bind, mret, Act_ret.
  simpl. now destruct (monthlyLedgers s !! previousMonthKey targetMonthKey).
Qed.

Lemma renderFigures_reads (s : AppState) :
  renderFigures s = (result renderFigures s, s).
Proof. reflexivity. Qed.

(** C9.  In every state, computing the rollover of a month leaves the
    state, hence the four collections, as it was, and so does computing
    the figures of the month in view; computing either twice in a row
    gives the same result both times. *)
Theorem reads_are_pure (s : AppState) (targetMonthKey : string) :
  let rollover := result (calculateRollover targetMonthKey) s in
  let figures := result renderFigures s in
  after (calculateRollover targetMonthKey) s = s
  ∧ after renderFigures s = s
  ∧ (r1 ← calculateRollover targetMonthKey;
     r2 ← calculateRollover targetMonthKey;
     mret (r1, r2)) s = ((rollover, rollover), s)
  ∧ (f1 ← renderFigures; f2 ← renderFigures; mret (f1, f2)) s
    = ((figures, figures), s).
Proof.
  intros rollover figures. subst rollover figures.
  unfold after. rewrite calculateRollover_reads. simpl.
  repeat split.
  unfold mbind, Act_bind. rewrite !calculateRollover_reads. reflexivity.
Qed.

Lemma startNewMonth_after (env : Env) (incomeInput rolloverInput : Q)
    (s : AppState) :
  after (startNewMonth env incomeInput rolloverInput) s
  = {| categories := categories s;
       recurringExpenses := recurringExpenses s;
       monthlyLedgers :=
         <[currentMonthKey s :=
             Ledger.mk incomeInput rolloverInput "OPEN"]> (monthlyLedgers s);
       transactions :=
         transactions s
         ++ imap (autoTransaction env (currentMonthKey s))
                 (recurringExpenses s);
       currentDate := currentDate s;
       view := dashboard |}.
Proof. reflexivity. Qed.

(** C10.  Opening a month leaves the categories and the recurring
    templates as they were, keeps every transaction already in the log at
    its position (the log only grows at its end), and leaves the ledger of
    every month other than the one being opened as it was. *)
Theorem startNewMonth_frame (env : Env) (incomeInput rolloverInput : Q)
    (s : AppState) :
  let s' := after (startNewMonth env incomeInput rolloverInput) s in
  categories s' = categories s
  ∧ recurringExpenses s' = recurringExpenses s
  ∧ transactions s `prefix_of` transactions s'
  ∧ (∀ (i : nat) (t : Transaction.t),
       transactions s !! i = Some t → transactions s' !! i = Some t)
  ∧ (∀ key : string,
       key ≠ currentMonthKey s →
       monthlyLedgers s' !! key = monthlyLedgers s !! key).
Proof.
  intros s'. subst s'. rewrite startNewMonth_after. simpl.
  split; [reflexivity|]. split; [reflexivity|].
  split; [now eexists|]. split.
  - intros i t Hi. now apply lookup_app_l_Some.
  - intros key Hkey. now apply lookup_insert_ne.
Qed.

End Effects.

(** ** Opening a month *)

Section OpenMonth.

Lemma filter_all {A : Type} (P : A → Prop) `{!∀ x, Decision (P x)}
    (l : list A) :
  Forall P l → filter P l = l.
Proof.
  induction 1 as [|x l Hx _ IH]; [reflexivity|].
  rewrite filter_cons_True by exact Hx. now rewrite IH.
Qed.




End OpenMonth.

Section OpenMonthWitness.



End OpenMonthWitness.

(** ** Re-opening a month, and the gate in front of it *)

Section Reopen.

Lemma currentLedger_startNewMonth (env : Env) (incomeInput rolloverInput : Q)
    (s : AppState) :
  currentLedger (after (startNewMonth env incomeInput rolloverInput) s)
  = Some (Ledger.mk incomeInput rolloverInput "OPEN").
Proof.
  rewrite startNewMonth_after. unfold currentLedger, currentMonthKey. simpl.
  apply lookup_insert_eq.
Qed.

Lemma screen_with_ledger (s : AppState) :
  is_Some (currentLedger s) →
  screen s = if is_settings (view s) then SettingsScreen
             else if is_add_transaction (view s) then AddTransactionScreen
             else DashboardScreen.
Proof.
  intros H. unfold screen. now rewrite (bool_decide_eq_true_2 _ H).
Qed.

Lemma screen_without_ledger (s : AppState) :
  currentLedger s = None →
  screen s = if is_settings (view s) then SettingsScreen
             else SetupScreen
                    (result (calculateRollover (currentMonthKey s)) s).
Proof.
  intros H. unfold screen. rewrite bool_decide_eq_false_2.
  - simpl. now destruct (is_settings (view s)).
  - rewrite H. now apply is_Some_None.
Qed.

(** C3, as the code has it.  [startNewMonth] makes no check of its own and
    signals no error: run in a state where the month in view already has a
    ledger, it stores the new ledger in place of the old one and appends
    one transaction per recurring template.  The guard is the screen
    selection: while the month in view has a ledger, the form that calls
    [startNewMonth] is not on display, so submitting it is not possible. *)
Theorem startNewMonth_existing_ledger (env : Env)
    (incomeInput rolloverInput : Q) (s : AppState) :
  is_Some (currentLedger s) →
  let s' := after (startNewMonth env incomeInput rolloverInput) s in
  currentLedger s' = Some (Ledger.mk incomeInput rolloverInput "OPEN")
  ∧ length (transactions s')
    = (length (transactions s) + length (recurringExpenses s))%nat
  ∧ ∀ income : Q, dispatch env (SubmitNewMonth income) s = None.
Proof.
  intros Hledger s'. subst s'.
  split; [apply currentLedger_startNewMonth|]. split.
  - rewrite startNewMonth_after. simpl. now rewrite length_app, length_imap.
  - intros income. unfold dispatch. rewrite (screen_with_ledger s Hledger).
    destruct (is_settings (view s)); [reflexivity|].
    now destruct (is_add_transaction (view s)).
Qed.

Lemma startNewMonth_existing_ledger_witness :
  is_Some (currentLedger Scenario.opened)
  ∧ currentLedger (after (startNewMonth Scenario.env 5000 0) Scenario.opened)
    = Some (Ledger.mk 5000 0 "OPEN")
  ∧ length (transactions
              (after (startNewMonth Scenario.env 5000 0) Scenario.opened))
    = 4%nat
  ∧ dispatch Scenario.env (SubmitNewMonth 5000) Scenario.opened = None.
Proof.
  assert (H : is_Some (currentLedger Scenario.opened)).
  { unfold Scenario.opened. rewrite currentLedger_startNewMonth. eauto. }
  destruct (startNewMonth_existing_ledger Scenario.env 5000 0
              Scenario.opened H) as (Hl & Hn & Hd).
  split; [exact H|]. split; [exact Hl|]. split; [exact Hn|]. apply Hd.
Defined.

(** C3 as stated fails: October 2025 already has a ledger (income 3000)
    and two transactions; a second [startNewMonth] for it goes through,
    the log grows from two to four transactions and the ledger is replaced
    by the new one (income 5000). *)
Lemma startNewMonth_twice_duplicates :
  let s := Scenario.opened in
  let s' := after (startNewMonth Scenario.env 5000 0) s in
  currentLedger s = Some (Ledger.mk 3000 0 "OPEN")
  ∧ length (transactions s) = 2%nat
  ∧ length (transactions s') = 4%nat
  ∧ currentLedger s' = Some (Ledger.mk 5000 0 "OPEN")
  ∧ currentLedger s' ≠ currentLedger s.
Proof.
  intros s s'. subst s s'.
  assert (H1 : currentLedger Scenario.opened
               = Some (Ledger.mk 3000 0 "OPEN"))
    by apply currentLedger_startNewMonth.
  assert (H2 : currentLedger
                 (after (startNewMonth Scenario.env 5000 0) Scenario.opened)
               = Some (Ledger.mk 5000 0 "OPEN"))
    by apply currentLedger_startNewMonth.
  split; [exact H1|]. split; [reflexivity|]. split; [reflexivity|].
  split; [exact H2|]. rewrite H1, H2. discriminate.
Qed.

End Reopen.

(** ** Recording a transaction *)

Section RecordTransaction.

Lemma addTransactionSubmit_after (env : Env) (category : string) (amount : Q)
    (s : AppState) :
  after (addTransactionSubmit env category amount) s
  = {| categories := categories s;
       recurringExpenses := recurringExpenses s;
       monthlyLedgers := monthlyLedgers s;
       transactions :=
         transactions s
         ++ [ {| Transaction.id := Js.String_of_int (Date_now env 0);
                 Transaction.monthKey := currentMonthKey s;
                 Transaction.categoryId := category;
                 Transaction.amount := amount;
                 Transaction.description := None;
                 Transaction.date := toISOString env 0;
                 Transaction.isFixed := false |} ];
       currentDate := currentDate s;
       view := dashboard |}.
Proof. reflexivity. Qed.

Lemma selectable_spec (s : AppState) (category : string) :
  selectable s category = true
  ↔ category ≠ "" ∧ category ∈ Category.id <$> categories s.
Proof.
  unfold selectable. rewrite andb_true_iff.
  now rewrite !bool_decide_eq_true.
Qed.

Lemma is_add_transaction_spec (v : View) :
  is_add_transaction v = true ↔ v = add_transaction.
Proof. destruct v; simpl; split; congruence. Qed.

Lemma dispatch_SubmitTransaction (env : Env) (category : string)
    (amount : Q) (s : AppState) :
  dispatch env (SubmitTransaction category amount) s
  = if is_add_transaction (view s)
       && bool_decide (is_Some (currentLedger s))
       && selectable s category
    then Some (after (addTransactionSubmit env category amount) s)
    else None.
Proof.
  unfold dispatch.
  destruct (currentLedger s) as [ledger|] eqn:Hledger.
  - rewrite screen_with_ledger by (rewrite Hledger; eauto).
    rewrite bool_decide_eq_true_2 by eauto.
    destruct (view s); simpl; try reflexivity.
  - rewrite screen_without_ledger by exact Hledger.
    rewrite bool_decide_eq_false_2 by apply is_Some_None.
    destruct (view s); reflexivity.
Qed.

(** What a number field lets through. *)
Lemma stepAligned_spec (step value : Q) :
  (0 < step)%Q →
  Form.stepAligned step value = true
  ↔ ∃ k : Z, (value == inject_Z k * step)%Q.
Proof.
  intros Hstep. unfold Form.stepAligned.
  assert (Hratio : ∀ k : Z,
            (value / step == inject_Z k)%Q ↔ (value == inject_Z k * step)%Q).
  { intros k. split; intros H.
    - rewrite <- H. field. lra.
    - rewrite H. field. lra. }
  destruct (value / step)%Q as [n d] eqn:Eratio. cbn [Qnum Qden].
  rewrite Z.eqb_eq, Z.mod_divide by discriminate. split.
  - intros [k Hk]. exists k. apply Hratio.
    unfold Qeq, inject_Z. cbn [Qnum Qden]. lia.
  - intros [k Hk]. apply Hratio in Hk. exists k.
    unfold Qeq, inject_Z in Hk. cbn [Qnum Qden] in Hk. lia.
Qed.

Lemma inRange_ordinary (value : Q) :
  (Qabs value <= 1000000000)%Q → Form.inRange value = true.
Proof.
  intros Hsize. unfold Form.inRange. apply negb_true_iff.
  destruct (Qle_bool Form.maxMagnitude (Qabs value)) eqn:E; [|reflexivity].
  apply Qle_bool_iff in E.
  assert (Hbig : (1000000000 < Form.maxMagnitude)%Q) by reflexivity.
  lra.
Qed.

Lemma accepts_cents (amount : Q) :
  (Qabs amount <= 1000000000)%Q →
  Form.accepts (1 # 100) amount = true
  ↔ ∃ cents : Z, (amount == cents # 100)%Q.
Proof.
  intros Hsize. unfold Form.accepts.
  rewrite (inRange_ordinary amount Hsize). cbn [andb].
  rewrite stepAligned_spec by reflexivity.
  split; intros [k Hk]; exists k; rewrite Hk;
    unfold Qeq, inject_Z, Qmult; cbn [Qnum Qden]; lia.
Qed.


Lemma dispatch_SubmitTransaction_gates (env : Env) (category : string)
    (amount : Q) (s : AppState) :
  is_add_transaction (view s)
  && bool_decide (is_Some (currentLedger s))
  && selectable s category = true
  ↔ view s = add_transaction
    ∧ is_Some (monthlyLedgers s !! currentMonthKey s)
    ∧ category ≠ ""
    ∧ (category ∈ Category.id <$> categories s).
Proof.
  rewrite !andb_true_iff, is_add_transaction_spec, selectable_spec.
  rewrite bool_decide_eq_true. unfold currentLedger. tauto.
Qed.

(** C8, as the code has it.  The submit handler of the expense form checks
    nothing and never fails: whatever the category id and the amount, and
    whether or not the month has a ledger, it appends exactly one
    transaction for the month in view with that category and that amount,
    and leaves the ledgers alone.  What stands in front of it is the page.
    The form is submitted only while the view is the expense form and the
    month in view has a ledger, and only with the non-empty id of a
    registered category; the browser also checks the amount field against
    its step of 0.01.  For amounts of ordinary size (up to 10^9 either
    way) that is all: the form goes through exactly when the view is the
    expense form, the month has a ledger, the category is registered and
    the amount is a whole number of cents.  The sign of the amount is not
    looked at. *)
Theorem addTransactionSubmit_spec (env : Env) (category : string)
    (amount : Q) (s : AppState) :
  let s' := after (addTransactionSubmit env category amount) s in
  (∃ t : Transaction.t,
     transactions s' = (transactions s ++ [t])%list
     ∧ Transaction.monthKey t = currentMonthKey s
     ∧ Transaction.categoryId t = category
     ∧ Transaction.amount t = amount
     ∧ Transaction.isFixed t = false)
  ∧ monthlyLedgers s' = monthlyLedgers s
  ∧ (∀ s'' : AppState,
       dispatch env (SubmitTransaction category amount) s = Some s'' →
       s'' = s'
       ∧ view s = add_transaction
       ∧ is_Some (monthlyLedgers s !! currentMonthKey s)
       ∧ category ≠ ""
       ∧ (category ∈ Category.id <$> categories s))
  ∧ (∀ s'' : AppState,
       submitExpenseForm env category amount s = Some s'' →
       dispatch env (SubmitTransaction category amount) s = Some s'')
  ∧ ((Qabs amount <= 1000000000)%Q →
     submitExpenseForm env category amount s = Some s'
     ↔ view s = add_transaction
       ∧ is_Some (monthlyLedgers s !! currentMonthKey s)
       ∧ category ≠ ""
       ∧ (category ∈ Category.id <$> categories s)
       ∧ ∃ cents : Z, (amount == cents # 100)%Q).
Proof.
  intros s'. subst s'. rewrite addTransactionSubmit_after.
  split; [eexists; simpl; repeat split|]. split; [reflexivity|].
  rewrite <- addTransactionSubmit_after.
  pose proof (dispatch_SubmitTransaction_gates env category amount s)
    as Hgates.
  unfold submitExpenseForm. rewrite dispatch_SubmitTransaction.
  destruct (is_add_transaction (view s)
            && bool_decide (is_Some (currentLedger s))
            && selectable s category).
  - assert (Hopen : view s = add_transaction
                    ∧ is_Some (monthlyLedgers s !! currentMonthKey s)
                    ∧ category ≠ ""
                    ∧ (category ∈ Category.id <$> categories s))
      by now apply Hgates.
    split; [|split].
    + intros s'' H. injection H as <-. now split.
    + intros s'' H.
      destruct (Form.accepts (1 # 100) amount); [exact H | discriminate H].
    + intros Hsize. rewrite <- (accepts_cents amount Hsize).
      destruct (Form.accepts (1 # 100) amount); split.
      * intros _. destruct Hopen as (? & ? & ? & ?). now repeat split.
      * reflexivity.
      * discriminate.
      * intros (_ & _ & _ & _ & H). discriminate H.
  - split; [|split].
    + discriminate.
    + intros s'' H.
      destruct (Form.accepts (1 # 100) amount); discriminate H.
    + intros Hsize. split.
      * intros H. destruct (Form.accepts (1 # 100) amount); discriminate H.
      * intros (H1 & H2 & H3 & H4 & _).
        assert (Hfalse : false = true) by (apply Hgates; now repeat split).
        discriminate Hfalse.
Qed.

Lemma addTransactionSubmit_spec_witness :
  submitExpenseForm Scenario.env "1759276800000" (1234 # 100) Scenario.adding
  = Some (after (addTransactionSubmit Scenario.env "1759276800000"
                   (1234 # 100)) Scenario.adding).
Proof.
  destruct (addTransactionSubmit_spec Scenario.env "1759276800000"
              (1234 # 100) Scenario.adding) as (_ & _ & _ & _ & Hiff).
  apply Hiff.
  - vm_compute. discriminate.
  - split; [reflexivity|]. split; [eexists; reflexivity|].
    split; [discriminate|]. split; [apply list_elem_of_here|].
    exists 1234. reflexivity.
Defined.

(** C8 as stated fails.  With October 2025 open and the expense form on
    display, submitting amount 0, or amount -5, for the registered category
    passes the checks of the browser and of the page, and the log grows by
    one transaction that carries that amount. *)
Lemma addTransactionSubmit_accepts_invalid :
  (∃ s' : AppState,
     submitExpenseForm Scenario.env "1759276800000" 0 Scenario.adding
     = Some s'
     ∧ length (transactions s')
       = S (length (transactions Scenario.adding))
     ∧ Transaction.amount <$> last (transactions s') = Some 0%Q)
  ∧ ∃ s' : AppState,
      submitExpenseForm Scenario.env "1759276800000" (-5) Scenario.adding
      = Some s'
      ∧ length (transactions s')
        = S (length (transactions Scenario.adding))
      ∧ Transaction.amount <$> last (transactions s') = Some (-5)%Q.
Proof.
  assert (Hopen : is_Some (currentLedger Scenario.adding)).
  { change (is_Some (currentLedger
                       (after (startNewMonth Scenario.env 3000 0)
                              Scenario.fresh))).
    rewrite currentLedger_startNewMonth. eauto. }
  assert (Hsel : selectable Scenario.adding "1759276800000" = true).
  { apply selectable_spec. split; [discriminate|].
    simpl. apply list_elem_of_here. }
  assert (Hd : ∀ amount : Q,
             dispatch Scenario.env (SubmitTransaction "1759276800000" amount)
                      Scenario.adding
             = Some (after (addTransactionSubmit Scenario.env
                              "1759276800000" amount) Scenario.adding)).
  { intros amount. rewrite dispatch_SubmitTransaction, Hsel.
    now rewrite (bool_decide_eq_true_2 _ Hopen). }
  assert (Hzero : Form.accepts (1 # 100) 0 = true) by (vm_compute; reflexivity).
  assert (Hminus : Form.accepts (1 # 100) (-5) = true)
    by (vm_compute; reflexivity).
  unfold submitExpenseForm. rewrite Hzero, Hminus. split.
  - eexists. split; [apply Hd|]. split; reflexivity.
  - eexists. split; [apply Hd|]. split; reflexivity.
Qed.

End RecordTransaction.

(** ** Spend per category against total spend *)

Section Aggregation.

#[local] Open Scope Q_scope.

Lemma sumAmounts_partition (P : Transaction.t → Prop)
    `{!∀ t, Decision (P t)} (l : list Transaction.t) :
  sumAmounts l
  == sumAmounts (filter P l) + sumAmounts (filter (fun t => ¬ P t) l).
Proof.
  induction l as [|t l IH]; [reflexivity|].
  rewrite !filter_cons. destruct (decide (P t)) as [Ht|Ht].
  - destruct (decide (¬ P t)) as [Hn|_]; [contradiction|].
    rewrite !sumAmounts_cons, IH. lra.
  - destruct (decide (¬ P t)) as [_|Hn]; [|contradiction].
    rewrite !sumAmounts_cons, IH. lra.
Qed.

Lemma sumAmounts_by_category (ids : list string) :
  NoDup ids →
  ∀ l : list Transaction.t,
    Forall (fun t => Transaction.categoryId t ∈ ids) l →
    sumAmounts l
    == Qsum ((fun c =>
                sumAmounts (filter (fun t => Transaction.categoryId t = c) l))
             <$> ids).
Proof.
  induction 1 as [|c ids Hc Hnd IH]; intros l Hl.
  - destruct l as [|t l]; [reflexivity|].
    apply Forall_cons_1 in Hl as [Ht _]. now apply not_elem_of_nil in Ht.
  - cbn [fmap list_fmap Qsum foldr].
    rewrite (sumAmounts_partition (fun t => Transaction.categoryId t = c) l).
    apply Qplus_comp; [reflexivity|].
    set (others := filter (fun t => ¬ Transaction.categoryId t = c) l).
    rewrite (IH others).
    + assert (Hsame :
        (fun d => sumAmounts
                    (filter (fun t => Transaction.categoryId t = d) others))
          <$> ids
        = (fun d => sumAmounts
                      (filter (fun t => Transaction.categoryId t = d) l))
          <$> ids).
      { apply Forall_fmap_ext, Forall_forall. intros d Hd.
        unfold others. rewrite list_filter_filter. f_equal.
        apply list_filter_iff. intros t. split; [now intros [? _]|].
        intros Ht. split; [exact Ht|]. rewrite Ht. now intros ->. }
      fold (Qsum ((fun d => sumAmounts
                    (filter (fun t => Transaction.categoryId t = d) l))
                  <$> ids)).
      now rewrite <- Hsame.
    + apply Forall_forall. intros t Ht.
      apply list_elem_of_filter in Ht as [Hne Hin].
      rewrite Forall_forall in Hl. specialize (Hl t Hin).
      apply elem_of_cons in Hl as [Heq|Hids]; [contradiction | exact Hids].
Qed.

(** The page keeps the state well referenced: no event that it accepts
    files a transaction or a template under an unregistered category. *)
Lemma wellReferenced_same_registries (s s' : AppState) :
  categories s' = categories s →
  transactions s' = transactions s →
  recurringExpenses s' = recurringExpenses s →
  wellReferenced s → wellReferenced s'.
Proof.
  unfold wellReferenced, registered. now intros -> -> ->.
Qed.

Lemma dispatch_wellReferenced (env : Env) (ev : Event) (s s' : AppState) :
  wellReferenced s → dispatch env ev s = Some s' → wellReferenced s'.
Proof.
  intros Hwell Hstep. unfold dispatch in Hstep.
  destruct (screen s) as [projectedRollover| | |];
    destruct ev as [income|name limit|name amount category|category amount|v];
    try discriminate Hstep.
  - injection Hstep as <-. destruct Hwell as [Hlog Hrec].
    rewrite startNewMonth_after. split; [|exact Hrec].
    cbn [transactions]. apply Forall_app.
    split; [exact Hlog|]. apply Forall_forall. intros t Ht.
    apply elem_of_lookup_imap in Ht as (i & model & -> & Hi).
    rewrite Forall_forall in Hrec. apply (Hrec model).
    now apply list_elem_of_lookup_2 in Hi.
  - injection Hstep as <-. destruct Hwell as [Hlog Hrec].
    set (newCat := Category.mk (Js.String_of_int (Date_now env 0)) name limit).
    assert (Hgrow : ∀ c, registered s c →
              c ∈ Category.id <$> (categories s ++ [newCat])%list).
    { intros c Hc. rewrite fmap_app. apply elem_of_app. now left. }
    split; (eapply Forall_impl; [eassumption | intros x; apply Hgrow]).
  - destruct (selectable s category) eqn:Hsel; [|discriminate Hstep].
    injection Hstep as <-. apply selectable_spec in Hsel as [_ Hsel].
    destruct Hwell as [Hlog Hrec]. split; [exact Hlog|].
    apply Forall_app. split; [exact Hrec|]. now apply Forall_singleton.
  - destruct v; try discriminate Hstep. injection Hstep as <-.
    now apply (wellReferenced_same_registries s).
  - destruct (selectable s category) eqn:Hsel; [|discriminate Hstep].
    injection Hstep as <-. apply selectable_spec in Hsel as [_ Hsel].
    destruct Hwell as [Hlog Hrec]. split; [|exact Hrec].
    apply Forall_app. split; [exact Hlog|]. now apply Forall_singleton.
  - destruct v; try discriminate Hstep. injection Hstep as <-.
    now apply (wellReferenced_same_registries s).
  - destruct v; try discriminate Hstep.
    + injection Hstep as <-.
      now apply (wellReferenced_same_registries s).
    + destruct (categories s) eqn:Hcats; [discriminate Hstep|].
      injection Hstep as <-.
      now apply (wellReferenced_same_registries s).
Qed.

Lemma wellReferenced_current (s : AppState) :
  wellReferenced s →
  Forall (fun t => Transaction.categoryId t ∈ Category.id <$> categories s)
         (currentTransactions s).
Proof.
  intros [Hlog _]. apply Forall_forall. intros t Ht.
  apply list_elem_of_filter in Ht as [_ Hin].
  rewrite Forall_forall in Hlog. now apply Hlog.
Qed.

(** With pairwise distinct ids, each transaction filed under one of them
    is in the list of exactly one. *)
Lemma filter_by_category_Permutation (ids : list string) :
  NoDup ids →
  ∀ l : list Transaction.t,
    Forall (fun t => Transaction.categoryId t ∈ ids) l →
    concat ((fun c => filter (fun t => Transaction.categoryId t = c) l)
            <$> ids)
    ≡ₚ l.
Proof.
  induction 1 as [|c ids Hc Hnd IH]; intros l Hl.
  - destruct l as [|t l]; [reflexivity|].
    apply Forall_cons_1 in Hl as [Ht _]. now apply not_elem_of_nil in Ht.
  - cbn [fmap list_fmap concat].
    set (others := filter (fun t => ¬ Transaction.categoryId t = c) l).
    assert (Hsame :
      (fun d => filter (fun t => Transaction.categoryId t = d) l) <$> ids
      = (fun d => filter (fun t => Transaction.categoryId t = d) others)
        <$> ids).
    { apply Forall_fmap_ext, Forall_forall. intros d Hd.
      unfold others. rewrite list_filter_filter.
      apply list_filter_iff. intros t. split; [|now intros [? _]].
      intros Ht. split; [exact Ht|]. rewrite Ht. now intros ->. }
    rewrite Hsame, (IH others).
    + apply filter_app_complement.
    + apply Forall_forall. intros t Ht.
      apply list_elem_of_filter in Ht as [Hne Hin].
      rewrite Forall_forall in Hl. specialize (Hl t Hin).
      apply elem_of_cons in Hl as [Heq|Hids]; [contradiction | exact Hids].
Qed.

(** C5, as the code has it.  In every state whose category ids are
    pairwise distinct and whose transactions of the month in view all carry
    the id of a registered category, the transactions that
    [getSpentByCategory] adds up (those of the month filed under the
    category), taken category after category, are the transactions that
    [totalSpent] adds up (those of the month), each exactly once and in
    another order; so, when the amounts are added exactly, [totalSpent]
    equals the sum over the registered categories of
    [getSpentByCategory]. *)
Theorem totalSpent_by_category (s : AppState) :
  NoDup (Category.id <$> categories s) →
  Forall (fun t => Transaction.categoryId t ∈ Category.id <$> categories s)
         (filter (fun t => Transaction.monthKey t = getMonthKey (currentDate s))
                 (transactions s)) →
  let ofMonth :=
    filter (fun t => Transaction.monthKey t = getMonthKey (currentDate s))
           (transactions s) in
  let ofCategory := fun cat : Category.t =>
    filter (fun t => Transaction.categoryId t = Category.id cat) ofMonth in
  let addUp := foldl (fun acc t => acc + Transaction.amount t) 0 in
  concat (ofCategory <$> categories s) ≡ₚ ofMonth
  ∧ totalSpent s = addUp ofMonth
  ∧ (∀ cat : Category.t,
       getSpentByCategory s (Category.id cat) = addUp (ofCategory cat))
  ∧ totalSpent s
    == Qsum ((fun cat => getSpentByCategory s (Category.id cat))
             <$> categories s).
Proof.
  intros Hnd Hreg ofMonth ofCategory addUp.
  change ofMonth with (currentTransactions s).
  split; [|split; [|split]].
  - etransitivity;
      [|apply (filter_by_category_Permutation _ Hnd _ Hreg)].
    now rewrite <- list_fmap_compose.
  - reflexivity.
  - intros cat. reflexivity.
  - unfold totalSpent, getSpentByCategory.
    rewrite (sumAmounts_by_category _ Hnd _ Hreg).
    now rewrite <- list_fmap_compose.
Qed.

Lemma totalSpent_by_category_witness :
  totalSpent Scenario.spending == 2650
  ∧ totalSpent Scenario.spending
    == Qsum ((fun cat => getSpentByCategory Scenario.spending (Category.id cat))
             <$> categories Scenario.spending).
Proof.
  split; [reflexivity|].
  apply (totalSpent_by_category Scenario.spending).
  - apply (bool_decide_unpack _). vm_compute. exact I.
  - apply (bool_decide_unpack _). vm_compute. exact I.
Defined.

(** C5 as stated fails, in two ways.  On the doubles of the code the two
    sides add the same amounts in different orders and round differently:
    with 0.30 and 0.10 spent in one category and 0.20 in another,
    [totalSpent] is 0.6 and the sum over the categories, in either order,
    is 0.6000000000000001.  And the page can register two categories
    under one id (both created while the clock shows the same
    millisecond): 10 spent under that id is then counted once in
    [totalSpent] and once for each of the two categories. *)
Lemma totalSpent_by_category_fails :
  (Dbl.totalSpent Dbl.centsLog "2025-10" = Dbl.sixTenths
   ∧ Dbl.spentOverCategories ["1759276800000"; "1759276800003"]
                             Dbl.centsLog "2025-10"
     = Dbl.sixTenthsAndOneUlp
   ∧ Dbl.spentOverCategories ["1759276800003"; "1759276800000"]
                             Dbl.centsLog "2025-10"
     = Dbl.sixTenthsAndOneUlp
   ∧ PrimFloat.eqb Dbl.sixTenths Dbl.sixTenthsAndOneUlp = false)
  ∧ (Category.id <$>
       categories (app (run twoCategoriesOneId
                            (firstRun (Js.ValidDate 2025 9) 15)))
     = ["1761955200000"; "1761955200000"]
     ∧ totalSpent (app (run twoCategoriesOneId
                            (firstRun (Js.ValidDate 2025 9) 15)))
       == 10
     ∧ Qsum ((fun cat =>
                getSpentByCategory
                  (app (run twoCategoriesOneId
                            (firstRun (Js.ValidDate 2025 9) 15)))
                  (Category.id cat))
             <$> categories (app (run twoCategoriesOneId
                                      (firstRun (Js.ValidDate 2025 9) 15))))
       == 20).
Proof.
  split.
  - repeat split; vm_compute; reflexivity.
  - repeat split; vm_compute; reflexivity.
Qed.

End Aggregation.

(** ** The bar of a category card *)

Section Percentage.

#[local] Open Scope Q_scope.



(** With limit 0 and a positive spend the division gives [Infinity] and
    the bar is 100. *)
Lemma percentage_zero_limit_spent (s : AppState) (cat : Category.t) :
  Category.limit cat == 0 →
  0 < getSpentByCategory s (Category.id cat) →
  percentage s cat = Js.Fin 100.
Proof.
  intros Hlimit Hspent. unfold percentage, Js.div, Js.Qsign.
  apply Qeq_alt in Hlimit. apply Qgt_alt in Hspent.
  now rewrite Hlimit, Hspent.
Qed.

(** With limit 0 and nothing spent the division is 0 / 0. *)
Lemma percentage_zero_limit_unspent (s : AppState) (cat : Category.t) :
  Category.limit cat == 0 →
  getSpentByCategory s (Category.id cat) == 0 →
  percentage s cat = Js.NaN.
Proof.
  intros Hlimit Hspent. unfold percentage, Js.div, Js.Qsign.
  apply Qeq_alt in Hlimit. apply Qeq_alt in Hspent.
  now rewrite Hlimit, Hspent.
Qed.

(** C7 at its failing input.  A category registered with limit 0 in which
    nothing was spent this month: the bar percentage is [NaN], not 100 and
    not any number between 0 and 100. *)
Theorem percentage_zero_limit_no_spend :
  Category.limit Scenario.reserve == 0
  ∧ getSpentByCategory Scenario.with_reserve
      (Category.id Scenario.reserve) == 0
  ∧ percentage Scenario.with_reserve Scenario.reserve = Js.NaN
  ∧ ∀ q : Q, percentage Scenario.with_reserve Scenario.reserve ≠ Js.Fin q.
Proof.
  assert (Hl : Category.limit Scenario.reserve == 0) by reflexivity.
  assert (Hs : getSpentByCategory Scenario.with_reserve
                 (Category.id Scenario.reserve) == 0) by reflexivity.
  split; [exact Hl|]. split; [exact Hs|].
  rewrite (percentage_zero_limit_unspent _ _ Hl Hs).
  split; [reflexivity | discriminate].
Qed.

End Percentage.

(** ** The worked scenario, evaluated *)

Section WorkedScenario.

#[local] Open Scope Q_scope.

(** No month before October 2025 was opened: nothing rolls over. *)
Example scenario_first_rollover :
  result (calculateRollover "2025-10") Scenario.fresh = 0.
Proof. reflexivity. Qed.

(** Opening October with income 3000 files the two templates. *)
Example scenario_opened_figures :
  totalAvailable Scenario.opened == 3000
  ∧ totalSpent Scenario.opened == 2400
  ∧ remainingBalance Scenario.opened == 600.
Proof. repeat split. Qed.

(** 2650 spent in October out of 3000: November starts with 350. *)
Example scenario_next_rollover :
  result (calculateRollover "2025-11") Scenario.spending == 350.
Proof. reflexivity. Qed.

(** 250 spent against a limit of 200: the bar stops at 100. *)
Example scenario_bar_clamped :
  getSpentByCategory Scenario.spending "1759276800003" == 250
  ∧ percentage Scenario.spending Scenario.market = Js.Fin 100
  ∧ isOver Scenario.spending Scenario.market = true.
Proof. repeat split. Qed.

(** 3400 spent out of 3000: the balance shows -400, and nothing is carried
    into November. *)
Example scenario_overspent :
  remainingBalance Scenario.overspent == -400
  ∧ result (calculateRollover "2025-11") Scenario.overspent == 0.
Proof. repeat split. Qed.

End WorkedScenario.

(* ====================================================================== *)
(** * Further properties of the code *)
(* ====================================================================== *)

(** ** Writing and reading month keys *)

Section KeyRoundTrip.

Lemma append_nil_l (s : string) : "" ++ s = s.
Proof. reflexivity. Qed.

Lemma length_append (s t : string) :
  String.length (s ++ t) = (String.length s + String.length t)%nat.
Proof.
  induction s as [|c s IH]; [reflexivity|].
  rewrite append_String. cbn [String.length]. now rewrite IH.
Qed.

Lemma append_inj_suffix (s1 s2 t1 t2 : string) :
  String.length t1 = String.length t2 →
  s1 ++ t1 = s2 ++ t2 → s1 = s2 ∧ t1 = t2.
Proof.
  intros Hlen. revert s2.
  induction s1 as [|c1 s1 IH]; intros [|c2 s2] H.
  - now rewrite !append_nil_l in H.
  - rewrite append_nil_l in H. rewrite H, append_String in Hlen.
    cbn [String.length] in Hlen. rewrite length_append in Hlen. lia.
  - rewrite append_nil_l in H. rewrite <- H, append_String in Hlen.
    cbn [String.length] in Hlen. rewrite length_append in Hlen. lia.
  - rewrite !append_String in H. injection H as -> H.
    destruct (IH _ H) as [-> ->]. now split.
Qed.

Lemma String_of_int_inj (n n' : Z) :
  Js.String_of_int n = Js.String_of_int n' → n = n'.
Proof.
  unfold Js.String_of_int. intros H. apply DecimalZ.to_int_inj.
  assert (Hnil : ∀ z : Z, Z.to_int z ≠ Decimal.Pos Decimal.Nil
                          ∧ Z.to_int z ≠ Decimal.Neg Decimal.Nil).
  { intros [|p|p]; cbn [Z.to_int]; split; try discriminate;
      intros [= Hp]; now apply DecimalPos.Unsigned.to_uint_nonnil in Hp. }
  assert (Hs : Some (Z.to_int n) = Some (Z.to_int n')).
  { rewrite <- (NilZero.isi (Z.to_int n)) by apply Hnil.
    rewrite <- (NilZero.isi (Z.to_int n')) by apply Hnil.
    now rewrite H. }
  now injection Hs.
Qed.

Lemma month_index_cases (m : Z) :
  0 <= m <= 11 →
  m = 0 ∨ m = 1 ∨ m = 2 ∨ m = 3 ∨ m = 4 ∨ m = 5
  ∨ m = 6 ∨ m = 7 ∨ m = 8 ∨ m = 9 ∨ m = 10 ∨ m = 11.
Proof. lia. Qed.

(** The two characters that [getMonthKey] writes for the month. *)
Lemma month_part (month : Z) :
  0 <= month <= 11 →
  let mm := Js.padStart 2 "0" (Js.String_of_int (month + 1)) in
  String.length mm = 2%nat
  ∧ Js.split "-" mm = [mm]
  ∧ Js.Number mm = Some (month + 1).
Proof.
  intros Hm.
  destruct (month_index_cases month Hm)
    as [->|[->|[->|[->|[->|[->|[->|[->|[->|[->|[->| ->]]]]]]]]]]];
    vm_compute; repeat split.
Qed.

(** X1.  Reading back a key that [getMonthKey] wrote, the way
    [calculateRollover] does (cut at the dashes, [Number] on the pieces),
    gives the year and the month number (1 to 12) of the date, for every
    date of a year from 0 on. *)
Theorem monthKey_parse_roundtrip (year month : Z) :
  0 <= year → 0 <= month <= 11 →
  Js.Number <$> Js.split "-" (getMonthKey (Js.ValidDate year month))
  = [Some year; Some (month + 1)].
Proof.
  intros Hy Hm. unfold getMonthKey.
  destruct (month_part month Hm) as (_ & Hsplit & Hnum).
  change ("-" ++ Js.padStart 2 "0" (Js.String_of_int (month + 1)))
    with (String "-" (Js.padStart 2 "0" (Js.String_of_int (month + 1)))).
  rewrite split_String_of_int by exact Hy. rewrite Hsplit.
  cbn [fmap list_fmap]. now rewrite Number_String_of_int, Hnum.
Qed.

Lemma monthKey_parse_roundtrip_witness :
  Js.Number <$> Js.split "-" "2025-10" = [Some 2025; Some 10].
Proof.
  exact (monthKey_parse_roundtrip 2025 9 ltac:(lia) ltac:(lia)).
Defined.

Lemma getMonthKey_valid_inj (year month year' month' : Z) :
  0 <= month <= 11 → 0 <= month' <= 11 →
  getMonthKey (Js.ValidDate year month)
  = getMonthKey (Js.ValidDate year' month') →
  year = year' ∧ month = month'.
Proof.
  intros Hm Hm' H.
  destruct (month_part month Hm) as (Hlen & _ & Hnum).
  destruct (month_part month' Hm') as (Hlen' & _ & Hnum').
  unfold getMonthKey in H. apply append_inj_suffix in H as [Hy Hmm].
  - split; [now apply String_of_int_inj|].
    apply append_inj_suffix in Hmm as [_ Hmm]; [|now rewrite Hlen, Hlen'].
    rewrite Hmm, Hnum' in Hnum. injection Hnum. lia.
  - rewrite !length_append. now rewrite Hlen, Hlen'.
Qed.

(** X2.  Two dates (of any year, before year 0 included) get the same key
    only if they are the same month of the same year, and the key of a date
    is never the key "NaN-NaN" of an invalid date: the ledgers of two
    months cannot land in the same entry. *)
Theorem getMonthKey_injective (year month year' month' : Z) :
  0 <= month <= 11 → 0 <= month' <= 11 →
  (getMonthKey (Js.ValidDate year month)
   = getMonthKey (Js.ValidDate year' month')
   → year = year' ∧ month = month')
  ∧ getMonthKey (Js.ValidDate year month) ≠ getMonthKey Js.InvalidDate.
Proof.
  intros Hm Hm'. split; [now apply getMonthKey_valid_inj|].
  destruct (month_part month Hm) as (Hlen & _ & _).
  unfold getMonthKey. intros H.
  change "NaN-NaN" with ("NaN-" ++ "NaN") in H.
  apply append_inj_suffix in H as [_ H].
  - rewrite append_String in H. discriminate H.
  - rewrite !length_append. now rewrite Hlen.
Qed.

Lemma getMonthKey_injective_witness :
  getMonthKey (Js.ValidDate 2025 9) ≠ getMonthKey (Js.ValidDate 2025 10)
  ∧ getMonthKey (Js.ValidDate 2025 9) ≠ "NaN-NaN".
Proof.
  destruct (getMonthKey_injective 2025 9 2025 10 ltac:(lia) ltac:(lia))
    as [Hinj Hvalid].
  split; [|exact Hvalid].
  intros H. destruct (Hinj H) as [_ Hm]. discriminate Hm.
Defined.

End KeyRoundTrip.

(** ** The rollover and the balance it comes from *)

Section RolloverChain.

#[local] Open Scope Q_scope.

Lemma calculateRollover_result (targetMonthKey : string) (s : AppState) :
  result (calculateRollover targetMonthKey) s
  = match monthlyLedgers s !! previousMonthKey targetMonthKey with
    | None => 0
    | Some prevLedger =>
        Js.Math_max 0
          (Ledger.income prevLedger + Ledger.rollover prevLedger
           - sumAmounts
               (filter (fun t => Transaction.monthKey t
                                 = previousMonthKey targetMonthKey)
                       (transactions s)))
    end.
Proof.
  unfold result, calculateRollover, read, mbind, Act_bind, mret, Act_ret.
  cbn [fst]. now destruct (monthlyLedgers s !! _).
Qed.

Lemma previousMonthKey_of_date (year month : Z) :
  (100 <= year <= 275759)%Z → (0 <= month <= 11)%Z →
  previousMonthKey (getMonthKey (Js.ValidDate year month))
  = getMonthKey (if (month =? 0)%Z then Js.ValidDate (year - 1) 11
                 else Js.ValidDate year (month - 1)).
Proof.
  intros Hy Hm.
  replace (Js.ValidDate year month)
    with (Js.ValidDate year (month + 1 - 1)) by (f_equal; lia).
  fold (monthKeyOf year (month + 1)).
  rewrite previousMonthKey_calendar by lia.
  destruct (Z.eqb_spec month 0) as [->|Hne].
  - reflexivity.
  - destruct (Z.eqb_spec (month + 1) 1); [lia|].
    unfold monthKeyOf. do 2 f_equal. lia.
Qed.

Lemma previousMonthKey_differs (year month : Z) :
  (100 <= year <= 275759)%Z → (0 <= month <= 11)%Z →
  previousMonthKey (getMonthKey (Js.ValidDate year month))
  ≠ getMonthKey (Js.ValidDate year month).
Proof.
  intros Hy Hm. rewrite previousMonthKey_of_date by assumption.
  destruct (Z.eqb_spec month 0) as [->|Hne]; intros H;
    apply getMonthKey_valid_inj in H; lia.
Qed.









Lemma filter_none {A : Type} (P : A → Prop) `{!∀ x, Decision (P x)}
    (l : list A) :
  Forall (fun x => ¬ P x) l → filter P l = [].
Proof.
  induction 1 as [|x l Hx _ IH]; [reflexivity|].
  now rewrite filter_cons_False.
Qed.

(** X5.  Neither opening the month in view nor recording an expense in it
    changes the rollover computed for that same month (for a date of a
    year from 100 on): the amount offered on the setup form is the amount
    found again whenever it is recomputed later. *)
Theorem own_rollover_unchanged (env : Env) (s : AppState) (year month : Z) :
  currentDate s = Js.ValidDate year month →
  (100 <= year <= 275759)%Z → (0 <= month <= 11)%Z →
  let own := result (calculateRollover (currentMonthKey s)) in
  (∀ (category : string) (amount : Q),
     own (after (addTransactionSubmit env category amount) s) = own s)
  ∧ (∀ incomeInput rolloverInput : Q,
       own (after (startNewMonth env incomeInput rolloverInput) s) = own s).
Proof.
  intros Hdate Hy Hm own. subst own.
  assert (Hne : previousMonthKey (currentMonthKey s) ≠ currentMonthKey s).
  { unfold currentMonthKey. rewrite Hdate.
    now apply previousMonthKey_differs. }
  split.
  - intros category amount.
    rewrite !calculateRollover_result, addTransactionSubmit_after.
    cbn [monthlyLedgers transactions currentMonthKey currentDate].
    fold (currentMonthKey s).
    rewrite filter_app, (filter_none _ [_]); [now rewrite app_nil_r|].
    apply Forall_singleton. cbn. congruence.
  - intros incomeInput rolloverInput.
    rewrite !calculateRollover_result, startNewMonth_after.
    cbn [monthlyLedgers transactions currentMonthKey currentDate].
    fold (currentMonthKey s).
    rewrite lookup_insert_ne by congruence.
    rewrite filter_app, (filter_none _ (imap _ _)); [now rewrite app_nil_r|].
    apply Forall_forall. intros t Ht.
    apply elem_of_lookup_imap in Ht as (i & model & -> & _).
    cbn. congruence.
Qed.

Lemma own_rollover_unchanged_witness :
  result (calculateRollover "2025-10")
         (after (startNewMonth Scenario.env 3000 0) Scenario.fresh)
  = result (calculateRollover "2025-10") Scenario.fresh.
Proof.
  exact (proj2 (own_rollover_unchanged Scenario.env Scenario.fresh 2025 9
                  eq_refl ltac:(lia) ltac:(lia)) 3000 0).
Defined.

End RolloverChain.

(** ** What the handlers do to the figures *)

Section HandlersAndFigures.

#[local] Open Scope Q_scope.








Lemma sumAmounts_snoc (l : list Transaction.t) (t : Transaction.t) :
  sumAmounts (l ++ [t]) = sumAmounts l + Transaction.amount t.
Proof. unfold sumAmounts. now rewrite foldl_snoc. Qed.

(** X7.  Recording an expense of a given amount adds that amount, as the
    last term, to what is spent in the month in view and to what is spent
    in the chosen category; it leaves what is spent in every other category
    and what is available as they were; what remains is then what is
    available minus the new total spent.  Each equality is between the very
    computations of the code, term by term. *)
Theorem addTransactionSubmit_figures (env : Env) (category : string)
    (amount : Q) (s : AppState) :
  let s' := after (addTransactionSubmit env category amount) s in
  totalSpent s' = totalSpent s + amount
  ∧ getSpentByCategory s' category = getSpentByCategory s category + amount
  ∧ (∀ other : string,
       other ≠ category →
       getSpentByCategory s' other = getSpentByCategory s other)
  ∧ totalAvailable s' = totalAvailable s
  ∧ remainingBalance s' = totalAvailable s - (totalSpent s + amount).
Proof.
  intros s'.
  set (t := {| Transaction.id := Js.String_of_int (Date_now env 0);
               Transaction.monthKey := currentMonthKey s;
               Transaction.categoryId := category;
               Transaction.amount := amount;
               Transaction.description := None;
               Transaction.date := toISOString env 0;
               Transaction.isFixed := false |}).
  assert (Hcur : currentTransactions s' = (currentTransactions s ++ [t])%list).
  { subst s'. rewrite addTransactionSubmit_after. unfold currentTransactions.
    cbn [transactions currentMonthKey currentDate].
    fold (currentMonthKey s). fold t.
    rewrite filter_app. f_equal. now apply filter_all, Forall_singleton. }
  assert (Hspent : totalSpent s' = totalSpent s + amount).
  { unfold totalSpent. rewrite Hcur. apply sumAmounts_snoc. }
  assert (Havail : totalAvailable s' = totalAvailable s) by reflexivity.
  split; [exact Hspent|]. split; [|split; [|split; [exact Havail|]]].
  - unfold getSpentByCategory. rewrite Hcur, filter_app.
    rewrite (filter_all _ [t]) by now apply Forall_singleton.
    apply sumAmounts_snoc.
  - intros other Hother. unfold getSpentByCategory.
    rewrite Hcur, filter_app, (filter_none _ [t]); [now rewrite app_nil_r|].
    apply Forall_singleton. cbn. congruence.
  - unfold remainingBalance. now rewrite Havail, Hspent.
Qed.

End HandlersAndFigures.

(** ** The setup form and the screens *)

Section SetupForm.

#[local] Open Scope Q_scope.

Lemma is_settings_spec (v : View) : is_settings v = true ↔ v = settings.
Proof. destruct v; simpl; split; congruence. Qed.

Lemma screen_setup (s : AppState) :
  currentLedger s = None → view s ≠ settings →
  screen s = SetupScreen (result (calculateRollover (currentMonthKey s)) s).
Proof.
  intros Hledger Hview. rewrite screen_without_ledger by exact Hledger.
  destruct (is_settings (view s)) eqn:E; [|reflexivity].
  now apply is_settings_spec in E.
Qed.

Lemma dispatch_SubmitNewMonth (env : Env) (income : Q) (s : AppState) :
  dispatch env (SubmitNewMonth income) s
  = if bool_decide (is_Some (currentLedger s)) || is_settings (view s)
    then None
    else Some (after (startNewMonth env income
                        (result (calculateRollover (currentMonthKey s)) s))
                     s).
Proof.
  unfold dispatch. destruct (currentLedger s) as [ledger|] eqn:Hledger.
  - rewrite screen_with_ledger by (rewrite Hledger; eauto).
    rewrite bool_decide_eq_true_2 by eauto.
    destruct (view s); reflexivity.
  - rewrite screen_without_ledger by exact Hledger.
    rewrite bool_decide_eq_false_2 by apply is_Some_None.
    destruct (view s); reflexivity.
Qed.



(** X9.  While the month in view has no ledger, and unless the settings
    are already showing, the only form or view control that the page
    accepts is the opening of the month: no category, template or expense
    can be entered and no other view can be chosen. *)
Theorem unopened_month_only_opens (env : Env) (ev : Event) (s s' : AppState) :
  currentLedger s = None → view s ≠ settings →
  dispatch env ev s = Some s' →
  ∃ income : Q, ev = SubmitNewMonth income.
Proof.
  intros Hledger Hview Hstep. unfold dispatch in Hstep.
  rewrite screen_setup in Hstep by assumption.
  destruct ev; try discriminate Hstep. eauto.
Qed.

Lemma unopened_month_only_opens_witness :
  ∃ income : Q, SubmitNewMonth 3000 = SubmitNewMonth income.
Proof.
  apply (unopened_month_only_opens Scenario.env (SubmitNewMonth 3000)
           Scenario.fresh Scenario.opened).
  - apply lookup_empty.
  - discriminate.
  - rewrite dispatch_SubmitNewMonth.
    rewrite bool_decide_eq_false_2; [reflexivity|].
    unfold currentLedger. cbn [Scenario.fresh monthlyLedgers].
    rewrite lookup_empty. apply is_Some_None.
Defined.

End SetupForm.

(** ** The bar of a category with a positive limit *)

Section PositiveLimit.

#[local] Open Scope Q_scope.




End PositiveLimit.

(** ** Changing month *)

Section MonthNavigation.

Lemma daysInMonth_bounds (year month : Z) :
  28 <= Calendar.daysInMonth year month <= 31.
Proof.
  unfold Calendar.daysInMonth.
  destruct (month =? 1); [destruct (Calendar.isLeapYear year); lia|].
  destruct ((month =? 3) || (month =? 5) || (month =? 8) || (month =? 10));
    lia.
Qed.

Lemma monthIndex_split (index : Z) :
  Calendar.monthIndex (index / 12) (index mod 12) = index.
Proof. unfold Calendar.monthIndex. pose proof (Z.div_mod index 12). lia. Qed.

Lemma monthIndex_div_mod (year month : Z) :
  0 <= month <= 11 →
  Calendar.monthIndex year month / 12 = year
  ∧ Calendar.monthIndex year month mod 12 = month.
Proof.
  intros Hm. unfold Calendar.monthIndex.
  rewrite Z.add_comm, Z.div_add, Z.mod_add, Z.div_small, Z.mod_small by lia.
  lia.
Qed.

(** [setMonth] where the month aimed at and the one after it are dates. *)
Lemma setMonth_in_range (year month0 day month : Z) :
  let target := Calendar.monthIndex year month in
  let length := Calendar.daysInMonth (target / 12) (target mod 12) in
  Js.minMonths <= target → target + 1 < Js.maxMonths →
  Calendar.setMonth (Js.ValidDate year month0) day month
  = if day <=? length
    then (Js.ValidDate (target / 12) (target mod 12), day)
    else (Js.ValidDate ((target + 1) / 12) ((target + 1) mod 12),
          day - length).
Proof.
  intros target length Hmin Hmax. unfold Calendar.setMonth.
  fold target. fold length.
  destruct (day <=? length).
  - replace ((Js.minMonths <=? target) && (target <? Js.maxMonths))
      with true by (symmetry; apply andb_true_iff; lia).
    reflexivity.
  - replace ((Js.minMonths <=? target + 1) && (target + 1 <? Js.maxMonths))
      with true by (symmetry; apply andb_true_iff; lia).
    reflexivity.
Qed.

Lemma handleMonthChange_valid (ss : Session) (year month : Z) (dir : Z) :
  currentDate (app ss) = Js.ValidDate year month →
  handleMonthChange dir ss
  = {| app := after (setCurrentDate
                       (fun _ => (Calendar.setMonth (Js.ValidDate year month)
                                    (dayOfMonth ss) (month + dir)).1))
                    (app ss);
       dayOfMonth := (Calendar.setMonth (Js.ValidDate year month)
                        (dayOfMonth ss) (month + dir)).2 |}.
Proof.
  intros Hdate. unfold handleMonthChange. rewrite Hdate.
  now destruct (Calendar.setMonth _ _ _).
Qed.

Lemma year_range_months (year month : Z) :
  -271820 <= year <= 275758 → 0 <= month <= 11 →
  Js.minMonths < Calendar.monthIndex year month - 1
  ∧ Calendar.monthIndex year month + 2 < Js.maxMonths.
Proof.
  unfold Js.minMonths, Js.maxMonths, Calendar.monthIndex. lia.
Qed.

(** X11.  One press of a month button, from a well-formed date (years
    -271820 to 275758): the date stays well formed and the four
    collections and the view are untouched; the month moves by the
    direction pressed when the month aimed at has the current day of the
    month, and by one month more when it does not.  So "next" goes one or
    two months forward, and "previous" goes one month back or nowhere. *)
Theorem handleMonthChange_step (b : MonthButton) (ss : Session)
    (year month : Z) :
  currentDate (app ss) = Js.ValidDate year month →
  Calendar.wellFormed (Js.ValidDate year month) (dayOfMonth ss) →
  -271820 <= year <= 275758 →
  let ss' := handleMonthChange (direction b) ss in
  let target := Calendar.monthIndex year month + direction b in
  let fits :=
    dayOfMonth ss <= Calendar.daysInMonth (target / 12) (target mod 12) in
  ∃ year' month' : Z,
    currentDate (app ss') = Js.ValidDate year' month'
    ∧ Calendar.wellFormed (Js.ValidDate year' month') (dayOfMonth ss')
    ∧ (fits → Calendar.monthIndex year' month' = target
              ∧ dayOfMonth ss' = dayOfMonth ss)
    ∧ (¬ fits → Calendar.monthIndex year' month' = target + 1
                ∧ 1 <= dayOfMonth ss' <= 3)
    ∧ categories (app ss') = categories (app ss)
    ∧ recurringExpenses (app ss') = recurringExpenses (app ss)
    ∧ monthlyLedgers (app ss') = monthlyLedgers (app ss)
    ∧ transactions (app ss') = transactions (app ss)
    ∧ view (app ss') = view (app ss).
Proof.
  intros Hdate [Hm Hday] Hy ss' target fits. subst ss'.
  rewrite (handleMonthChange_valid ss year month _ Hdate).
  cbn [app dayOfMonth after setCurrentDate snd currentDate categories
       recurringExpenses monthlyLedgers transactions view].
  destruct (year_range_months year month Hy Hm) as [Hlo Hhi].
  assert (Htarget : Calendar.monthIndex year (month + direction b) = target)
    by (unfold target, Calendar.monthIndex; lia).
  assert (Hdir : direction b = -1 ∨ direction b = 1)
    by (destruct b; cbn; lia).
  rewrite setMonth_in_range; rewrite Htarget; try lia.
  pose proof (daysInMonth_bounds (target / 12) (target mod 12)) as Hlen.
  pose proof (daysInMonth_bounds year month) as Hcur.
  pose proof (daysInMonth_bounds ((target + 1) / 12) ((target + 1) mod 12))
    as Hnext.
  subst fits.
  destruct (Z.leb_spec (dayOfMonth ss)
              (Calendar.daysInMonth (target / 12) (target mod 12)))
    as [Hfit|Hover]; cbn [fst snd]; eexists _, _;
    (split; [reflexivity|]).
  - split; [split; [pose proof (Z.mod_pos_bound target 12); pose proof (Z.mod_pos_bound (target + 1) 12); lia | lia]|].
    split; [intros _; split; [apply monthIndex_split | reflexivity]|].
    split; [intros Hno; lia|]. repeat split.
  - split; [split; [pose proof (Z.mod_pos_bound target 12); pose proof (Z.mod_pos_bound (target + 1) 12); lia | lia]|].
    split; [intros Hyes; lia|].
    split; [intros _; split; [apply monthIndex_split | lia]|].
    repeat split.
Qed.

Lemma handleMonthChange_step_witness :
  ∃ year' month' : Z,
    currentDate (app (handleMonthChange 1 (mkSession Scenario.fresh 31)))
    = Js.ValidDate year' month'
    ∧ Calendar.monthIndex year' month' = Calendar.monthIndex 2025 9 + 2.
Proof.
  destruct (handleMonthChange_step NextMonth (mkSession Scenario.fresh 31)
              2025 9 eq_refl)
    as (year' & month' & Hdate & _ & _ & Hover & _).
  - vm_compute. repeat split; discriminate.
  - lia.
  - exists year', month'. split; [exact Hdate|].
    destruct Hover as [Hindex _]; [vm_compute; auto|].
    rewrite Hindex. reflexivity.
Defined.

(** The session after a press, when the day of the month fits the month
    aimed at. *)
Lemma handleMonthChange_fits (s : AppState) (day year month year' month' : Z)
    (dir : Z) :
  currentDate s = Js.ValidDate year month →
  Calendar.monthIndex year month + dir = Calendar.monthIndex year' month' →
  0 <= month' <= 11 →
  -271820 <= year' <= 275758 →
  day <= Calendar.daysInMonth year' month' →
  handleMonthChange dir (mkSession s day)
  = mkSession (mkState (categories s) (recurringExpenses s)
                       (monthlyLedgers s) (transactions s)
                       (Js.ValidDate year' month') (view s))
              day.
Proof.
  intros Hdate Hindex Hm' Hy' Hday.
  rewrite (handleMonthChange_valid (mkSession s day) year month _ Hdate).
  cbn [app dayOfMonth after setCurrentDate snd].
  destruct (year_range_months year' month' Hy' Hm') as [Hlo Hhi].
  destruct (monthIndex_div_mod year' month' Hm') as [Hdiv Hmod].
  assert (Htarget : Calendar.monthIndex year (month + dir)
                    = Calendar.monthIndex year' month')
    by (rewrite <- Hindex; unfold Calendar.monthIndex; lia).
  rewrite setMonth_in_range; rewrite Htarget; try lia.
  rewrite Hdiv, Hmod.
  destruct (Z.leb_spec day (Calendar.daysInMonth year' month')); [|lia].
  reflexivity.
Qed.

(** X12.  From a day of the month up to the 28th (years -271820 to
    275758), "next" shows the calendar month after and "previous" the
    calendar month before, keeping the day; pressing one and then the other
    brings the session back to where it was; and, from year 100 on, the
    month that "previous" shows is the month whose balance
    [calculateRollover] carries into the month in view. *)
Theorem handleMonthChange_there_and_back (ss : Session) (year month : Z) :
  currentDate (app ss) = Js.ValidDate year month →
  0 <= month <= 11 → 1 <= dayOfMonth ss <= 28 →
  -271819 <= year <= 275757 →
  let forward := handleMonthChange 1 ss in
  let back := handleMonthChange (-1) ss in
  currentDate (app forward)
  = (if month =? 11 then Js.ValidDate (year + 1) 0
     else Js.ValidDate year (month + 1))
  ∧ currentDate (app back)
    = (if month =? 0 then Js.ValidDate (year - 1) 11
       else Js.ValidDate year (month - 1))
  ∧ handleMonthChange (-1) forward = ss
  ∧ handleMonthChange 1 back = ss
  ∧ (100 <= year →
     currentMonthKey (app back) = previousMonthKey (currentMonthKey (app ss))).
Proof.
  intros Hdate Hm Hday Hy forward back.
  destruct ss as [[cats recs ledgers log date v] day].
  cbn [app currentDate dayOfMonth] in *. subst date.
  set (s := mkState cats recs ledgers log (Js.ValidDate year month) v).
  set (next := if month =? 11 then (year + 1, 0) else (year, month + 1)).
  set (prev := if month =? 0 then (year - 1, 11) else (year, month - 1)).
  assert (Hnext : Calendar.monthIndex year month + 1
                  = Calendar.monthIndex next.1 next.2
                  ∧ 0 <= next.2 <= 11 ∧ -271820 <= next.1 <= 275758).
  { subst next. unfold Calendar.monthIndex.
    destruct (Z.eqb_spec month 11); cbn [fst snd]; lia. }
  assert (Hprev : Calendar.monthIndex year month + -1
                  = Calendar.monthIndex prev.1 prev.2
                  ∧ 0 <= prev.2 <= 11 ∧ -271820 <= prev.1 <= 275758).
  { subst prev. unfold Calendar.monthIndex.
    destruct (Z.eqb_spec month 0); cbn [fst snd]; lia. }
  destruct Hnext as (Hn1 & Hn2 & Hn3). destruct Hprev as (Hp1 & Hp2 & Hp3).
  assert (Hshort : ∀ y m, day <= Calendar.daysInMonth y m)
    by (intros y m; pose proof (daysInMonth_bounds y m); lia).
  assert (Hforward : forward
            = mkSession (mkState cats recs ledgers log
                           (Js.ValidDate next.1 next.2) v) day).
  { subst forward.
    now rewrite (handleMonthChange_fits s day year month next.1 next.2). }
  assert (Hback : back
            = mkSession (mkState cats recs ledgers log
                           (Js.ValidDate prev.1 prev.2) v) day).
  { subst back.
    now rewrite (handleMonthChange_fits s day year month prev.1 prev.2). }
  rewrite Hforward, Hback. cbn [app currentDate].
  split; [subst next; now destruct (month =? 11)|].
  split; [subst prev; now destruct (month =? 0)|].
  split; [|split].
  - rewrite (handleMonthChange_fits _ day next.1 next.2 year month);
      try reflexivity; try lia; auto.
  - rewrite (handleMonthChange_fits _ day prev.1 prev.2 year month);
      try reflexivity; try lia; auto.
  - intros Hy100. unfold currentMonthKey. subst s. cbn [app currentDate].
    rewrite previousMonthKey_of_date by lia.
    subst prev. now destruct (month =? 0).
Qed.

Lemma handleMonthChange_there_and_back_witness :
  currentDate (app (handleMonthChange 1 (mkSession Scenario.opened 15)))
  = Js.ValidDate 2025 10
  ∧ handleMonthChange (-1)
      (handleMonthChange 1 (mkSession Scenario.opened 15))
    = mkSession Scenario.opened 15.
Proof.
  destruct (handleMonthChange_there_and_back (mkSession Scenario.opened 15)
              2025 9 eq_refl ltac:(lia) ltac:(cbn; lia) ltac:(lia))
    as (Hforward & _ & Hround & _).
  split; [exact Hforward | exact Hround].
Defined.

(** The session after a press, when the month aimed at is too short for
    the day of the month. *)
Lemma handleMonthChange_runs_over (s : AppState)
    (day year month year' month' : Z) (dir : Z) :
  currentDate s = Js.ValidDate year month →
  Calendar.monthIndex year month + dir = Calendar.monthIndex year' month' →
  0 <= month' <= 11 →
  -271820 <= year' <= 275758 →
  Calendar.daysInMonth year' month' < day →
  currentDate (app (handleMonthChange dir (mkSession s day)))
  = (if month' =? 11 then Js.ValidDate (year' + 1) 0
     else Js.ValidDate year' (month' + 1))
  ∧ dayOfMonth (handleMonthChange dir (mkSession s day))
    = day - Calendar.daysInMonth year' month'.
Proof.
  intros Hdate Hindex Hm' Hy' Hday.
  rewrite (handleMonthChange_valid (mkSession s day) year month _ Hdate).
  cbn [app dayOfMonth after setCurrentDate snd currentDate].
  destruct (year_range_months year' month' Hy' Hm') as [Hlo Hhi].
  destruct (monthIndex_div_mod year' month' Hm') as [Hdiv Hmod].
  assert (Htarget : Calendar.monthIndex year (month + dir)
                    = Calendar.monthIndex year' month')
    by (rewrite <- Hindex; unfold Calendar.monthIndex; lia).
  rewrite setMonth_in_range; rewrite Htarget; try lia.
  rewrite Hdiv, Hmod.
  destruct (Z.leb_spec day (Calendar.daysInMonth year' month')); [lia|].
  cbn [fst snd]. split; [|reflexivity].
  destruct (Z.eqb_spec month' 11) as [->|Hne].
  - replace (Calendar.monthIndex year' 11 + 1)
      with (Calendar.monthIndex (year' + 1) 0)
      by (unfold Calendar.monthIndex; lia).
    destruct (monthIndex_div_mod (year' + 1) 0 ltac:(lia)) as [-> ->].
    reflexivity.
  - replace (Calendar.monthIndex year' month' + 1)
      with (Calendar.monthIndex year' (month' + 1))
      by (unfold Calendar.monthIndex; lia).
    destruct (monthIndex_div_mod year' (month' + 1) ltac:(lia)) as [-> ->].
    reflexivity.
Qed.

Lemma daysInMonth_short (year month : Z) :
  month = 1 ∨ month = 3 ∨ month = 5 ∨ month = 8 ∨ month = 10 →
  Calendar.daysInMonth year month < 31.
Proof.
  unfold Calendar.daysInMonth.
  intros [->|[->|[->|[->| ->]]]]; cbn [Z.eqb Pos.eqb orb];
    try destruct (Calendar.isLeapYear year); lia.
Qed.

(** X13.  On the 31st of a month the buttons miss the shorter neighbour
    (years -271820 to 275758): "next" from the 31st of January, March,
    May, August or October shows the month two months later, and
    "previous" from the 31st of March, May, July, October or December
    shows the same month again, on one of its first three days. *)
Theorem handleMonthChange_on_the_31st (ss : Session) (year month : Z) :
  currentDate (app ss) = Js.ValidDate year month →
  dayOfMonth ss = 31 →
  -271820 <= year <= 275758 →
  (month = 0 ∨ month = 2 ∨ month = 4 ∨ month = 7 ∨ month = 9 →
   currentDate (app (handleMonthChange 1 ss))
   = Js.ValidDate year (month + 2))
  ∧ (month = 2 ∨ month = 4 ∨ month = 6 ∨ month = 9 ∨ month = 11 →
     currentDate (app (handleMonthChange (-1) ss)) = Js.ValidDate year month
     ∧ 1 <= dayOfMonth (handleMonthChange (-1) ss) <= 3).
Proof.
  intros Hdate Hday Hy. destruct ss as [s day].
  cbn [app dayOfMonth] in *. subst day. split.
  - intros Hmonth.
    destruct (handleMonthChange_runs_over s 31 year month year (month + 1) 1
                Hdate) as [Hnew _]; try lia.
    + unfold Calendar.monthIndex. lia.
    + apply daysInMonth_short. lia.
    + rewrite Hnew. destruct (Z.eqb_spec (month + 1) 11); [lia|].
      f_equal. lia.
  - intros Hmonth.
    destruct (handleMonthChange_runs_over s 31 year month year (month - 1)
                (-1) Hdate) as [Hnew Hd]; try lia.
    + unfold Calendar.monthIndex. lia.
    + apply daysInMonth_short. lia.
    + rewrite Hnew, Hd. destruct (Z.eqb_spec (month - 1) 11); [lia|].
      pose proof (daysInMonth_bounds year (month - 1)).
      pose proof (daysInMonth_short year (month - 1) ltac:(lia)).
      split; [f_equal; lia | lia].
Qed.

Lemma handleMonthChange_on_the_31st_witness :
  currentDate (app (handleMonthChange 1 (mkSession Scenario.fresh 31)))
  = Js.ValidDate 2025 11.
Proof.
  exact (proj1 (handleMonthChange_on_the_31st (mkSession Scenario.fresh 31)
                  2025 9 eq_refl eq_refl ltac:(lia))
               ltac:(lia)).
Defined.

End MonthNavigation.

(** ** What a whole session keeps *)

Section Sessions.

Lemma handleMonthChange_collections (dir : Z) (ss : Session) :
  categories (app (handleMonthChange dir ss)) = categories (app ss)
  ∧ recurringExpenses (app (handleMonthChange dir ss))
    = recurringExpenses (app ss)
  ∧ monthlyLedgers (app (handleMonthChange dir ss)) = monthlyLedgers (app ss)
  ∧ transactions (app (handleMonthChange dir ss)) = transactions (app ss).
Proof.
  unfold handleMonthChange.
  destruct (currentDate (app ss)) as [year month|]; [|now repeat split].
  now destruct (Calendar.setMonth _ _ _).
Qed.

Lemma dispatch_cases (env : Env) (ev : Event) (s s' : AppState) :
  dispatch env ev s = Some s' →
  (∃ income : Q,
     currentLedger s = None
     ∧ s' = after (startNewMonth env income
                     (result (calculateRollover (currentMonthKey s)) s)) s)
  ∨ (∃ name limit, s' = after (handleCreateCategory env name limit) s)
  ∨ (∃ name amount category,
       selectable s category = true
       ∧ s' = after (handleCreateRecurring env name amount category) s)
  ∨ (∃ category amount,
       selectable s category = true
       ∧ is_Some (currentLedger s)
       ∧ s' = after (addTransactionSubmit env category amount) s)
  ∨ (∃ v : View, s' = after (setView v) s).
Proof.
  intros Hstep. destruct ev as [income|name limit|name amount category
                               |category amount|v].
  - left. exists income. rewrite dispatch_SubmitNewMonth in Hstep.
    destruct (currentLedger s) as [ledger|].
    + rewrite bool_decide_eq_true_2 in Hstep by eauto. discriminate Hstep.
    + destruct (_ || _); [discriminate Hstep|]. injection Hstep as <-.
      now split.
  - right. left. exists name, limit. unfold dispatch in Hstep.
    destruct (screen s); try discriminate Hstep. now injection Hstep as <-.
  - right. right. left. exists name, amount, category.
    unfold dispatch in Hstep.
    destruct (screen s); try discriminate Hstep.
    destruct (selectable s category); [|discriminate Hstep].
    now injection Hstep as <-.
  - right. right. right. left. exists category, amount.
    rewrite dispatch_SubmitTransaction in Hstep.
    destruct (is_add_transaction (view s)); [|discriminate Hstep].
    destruct (bool_decide (is_Some (currentLedger s))) eqn:Hopen;
      [|discriminate Hstep].
    destruct (selectable s category); [|discriminate Hstep].
    injection Hstep as <-. apply bool_decide_eq_true in Hopen. now repeat split.
  - right. right. right. right. unfold dispatch in Hstep.
    destruct (screen s); destruct v; try discriminate Hstep;
      try (injection Hstep as <-; eauto).
    destruct (categories s); [discriminate Hstep|].
    injection Hstep as <-. eauto.
Qed.

Lemma dispatch_monthsOpened (env : Env) (ev : Event) (s s' : AppState) :
  monthsOpened s → dispatch env ev s = Some s' → monthsOpened s'.
Proof.
  intros Hopen Hstep. unfold monthsOpened in *.
  apply dispatch_cases in Hstep
    as [(income & _ & ->)|[(name & limit & ->)|[(name & amount & category
         & _ & ->)|[(category & amount & _ & Hledger & ->)|(v & ->)]]]];
    try exact Hopen.
  - rewrite startNewMonth_after. cbn [transactions monthlyLedgers].
    apply Forall_app. split.
    + eapply Forall_impl; [exact Hopen|]. intros t Ht.
      apply lookup_insert_is_Some'. now right.
    + apply Forall_forall. intros t Ht.
      apply elem_of_lookup_imap in Ht as (i & model & -> & _).
      cbn [autoTransaction Transaction.monthKey].
      rewrite lookup_insert_eq. eauto.
  - rewrite addTransactionSubmit_after. cbn [transactions monthlyLedgers].
    apply Forall_app. split; [exact Hopen|]. now apply Forall_singleton.
Qed.

Lemma dispatch_append_only (env : Env) (ev : Event) (s s' : AppState) :
  dispatch env ev s = Some s' →
  categories s `prefix_of` categories s'
  ∧ recurringExpenses s `prefix_of` recurringExpenses s'
  ∧ transactions s `prefix_of` transactions s'
  ∧ ∀ (key : string) (ledger : Ledger.t),
      monthlyLedgers s !! key = Some ledger →
      monthlyLedgers s' !! key = Some ledger.
Proof.
  intros Hstep.
  apply dispatch_cases in Hstep
    as [(income & Hnone & ->)|[(name & limit & ->)|[(name & amount & category
         & _ & ->)|[(category & amount & _ & _ & ->)|(v & ->)]]]].
  - rewrite startNewMonth_after.
    cbn [categories recurringExpenses transactions monthlyLedgers].
    repeat split; try reflexivity; [now apply prefix_app_r|].
    intros key ledger Hkey. rewrite lookup_insert_ne; [exact Hkey|].
    intros <-. unfold currentLedger in Hnone. congruence.
  - repeat split; try reflexivity; try (intros; assumption).
    now apply prefix_app_r.
  - repeat split; try reflexivity; try (intros; assumption).
    now apply prefix_app_r.
  - rewrite addTransactionSubmit_after.
    repeat split; try reflexivity; try (intros; assumption).
    now apply prefix_app_r.
  - repeat split; try reflexivity; intros; assumption.
Qed.

Lemma pageStep_cases (pe : PageEvent) (ss ss' : Session) :
  pageStep pe ss = Some ss' →
  (∃ env ev, dispatch env ev (app ss) = Some (app ss'))
  ∨ (∃ dir, ss' = handleMonthChange dir ss).
Proof.
  destruct pe as [env ev|b]; cbn [pageStep]; intros Hstep.
  - left. exists env, ev.
    destruct (dispatch env ev (app ss)) as [s'|]; [|discriminate Hstep].
    now injection Hstep as <-.
  - right. injection Hstep as <-. eauto.
Qed.

Lemma wellReferenced_first_run (today : Js.Date) (day : Z) :
  wellReferenced (app (firstRun today day))
  ∧ monthsOpened (app (firstRun today day)).
Proof. repeat split; apply Forall_nil_2. Qed.

(** X14.  Whatever is done in a session, every transaction in the log
    stays filed under a registered category and tagged with a month that
    has a ledger, and so does every recurring template stay filed under a
    registered category: this holds in the empty state of a first run and
    is kept by every form submission, view change and month button. *)
Theorem run_keeps_log_consistent (trace : list PageEvent) :
  (∀ ss : Session,
     wellReferenced (app ss) ∧ monthsOpened (app ss) →
     wellReferenced (app (run trace ss)) ∧ monthsOpened (app (run trace ss)))
  ∧ ∀ (today : Js.Date) (day : Z),
      wellReferenced (app (run trace (firstRun today day)))
      ∧ monthsOpened (app (run trace (firstRun today day))).
Proof.
  assert (Hkeep : ∀ ss : Session,
            wellReferenced (app ss) ∧ monthsOpened (app ss) →
            wellReferenced (app (run trace ss))
            ∧ monthsOpened (app (run trace ss))).
  { induction trace as [|pe trace IH]; intros ss Hinv; [exact Hinv|].
    cbn [run]. apply IH.
    destruct (pageStep pe ss) as [ss'|] eqn:Hstep; [|exact Hinv].
    change (default ss (Some ss')) with ss'. destruct Hinv as [Hwell Hopen].
    apply pageStep_cases in Hstep as [(env & ev & Hstep)|(dir & ->)].
    - split; [now apply (dispatch_wellReferenced env ev (app ss))
             | now apply (dispatch_monthsOpened env ev (app ss))].
    - destruct (handleMonthChange_collections dir ss)
        as (Hc & Hr & Hl & Ht).
      split.
      + now apply (wellReferenced_same_registries (app ss)).
      + unfold monthsOpened. now rewrite Hl, Ht. }
  split; [exact Hkeep|].
  intros today day. apply Hkeep, wellReferenced_first_run.
Qed.

Lemma pageStep_append_only (pe : PageEvent) (ss ss' : Session) :
  pageStep pe ss = Some ss' →
  categories (app ss) `prefix_of` categories (app ss')
  ∧ recurringExpenses (app ss) `prefix_of` recurringExpenses (app ss')
  ∧ transactions (app ss) `prefix_of` transactions (app ss')
  ∧ ∀ (key : string) (ledger : Ledger.t),
      monthlyLedgers (app ss) !! key = Some ledger →
      monthlyLedgers (app ss') !! key = Some ledger.
Proof.
  intros Hstep.
  apply pageStep_cases in Hstep as [(env & ev & Hstep)|(dir & ->)].
  - now apply (dispatch_append_only env ev).
  - destruct (handleMonthChange_collections dir ss) as (-> & -> & -> & ->).
    repeat split; try reflexivity. intros; assumption.
Qed.

(** X15.  Apart from the "Resetar Aplicativo" button, the page only ever
    adds: after any run of form submissions, view changes and month
    buttons, the categories, the recurring templates and the transactions
    the session started with are still there, unchanged and in the same
    places at the head of their lists, and every ledger that was stored is
    still stored with the same income and rollover; so through the page a
    month is never opened a second time.  The reset button is the one
    exception: the page takes it on the settings screen only, and it leaves
    the four collections empty. *)
Theorem run_only_adds (trace : list SessionEvent) (ss : Session) :
  (Forall (fun ev => isReset ev = false) trace →
   categories (app ss) `prefix_of` categories (app (runSession trace ss))
   ∧ recurringExpenses (app ss)
     `prefix_of` recurringExpenses (app (runSession trace ss))
   ∧ transactions (app ss)
     `prefix_of` transactions (app (runSession trace ss))
   ∧ ∀ (key : string) (ledger : Ledger.t),
       monthlyLedgers (app ss) !! key = Some ledger →
       monthlyLedgers (app (runSession trace ss)) !! key = Some ledger)
  ∧ ∀ (today : Js.Date) (day : Z) (ss' : Session),
      sessionStep (ResetClick today day) ss = Some ss' →
      view (app ss) = settings
      ∧ categories (app ss') = []
      ∧ recurringExpenses (app ss') = []
      ∧ transactions (app ss') = []
      ∧ monthlyLedgers (app ss') = ∅.
Proof.
  split.
  - revert ss. induction trace as [|ev trace IH]; intros ss Hplain.
    + repeat split; try reflexivity. intros; assumption.
    + apply Forall_cons_1 in Hplain as [Hev Hplain]. cbn [runSession].
      destruct ev as [pe|today day]; [|discriminate Hev].
      cbn [sessionStep].
      destruct (pageStep pe ss) as [ss'|] eqn:Hstep; [|now apply IH].
      change (default ss (Some ss')) with ss'.
      destruct (IH ss' Hplain) as (Hc & Hr & Ht & Hl).
      destruct (pageStep_append_only pe ss ss' Hstep)
        as (Hc1 & Hr1 & Ht1 & Hl1).
      split; [now transitivity (categories (app ss'))|].
      split; [now transitivity (recurringExpenses (app ss'))|].
      split; [now transitivity (transactions (app ss'))|].
      intros key ledger Hkey. now apply Hl, Hl1.
  - intros today day ss' Hstep. cbn [sessionStep] in Hstep.
    unfold screen in Hstep.
    destruct (negb (bool_decide (is_Some (currentLedger (app ss))))
              && negb (is_settings (view (app ss))));
      [discriminate Hstep|].
    destruct (is_settings (view (app ss))) eqn:Hview.
    + injection Hstep as <-. apply is_settings_spec in Hview.
      now repeat split.
    + destruct (is_add_transaction (view (app ss))); discriminate Hstep.
Qed.

Lemma run_only_adds_witness :
  [Scenario.housing]
  `prefix_of`
  categories
    (app (runSession
            [ OnPage (FormEvent Scenario.env (SubmitNewMonth 3000));
              OnPage (MonthClick NextMonth) ]
            (mkSession Scenario.fresh 15))).
Proof.
  apply (run_only_adds
           [ OnPage (FormEvent Scenario.env (SubmitNewMonth 3000));
             OnPage (MonthClick NextMonth) ]
           (mkSession Scenario.fresh 15)).
  repeat constructor.
Defined.



End Sessions.

(** ** New templates and new categories *)

Section Registries.

#[local] Open Scope Q_scope.

(** X17.  A recurring template registered while a month is open adds
    nothing to that month: the log and the figures stay as they are.  It
    takes effect at the next opening, where it yields one more automated
    transaction, placed after those of the older templates and carrying
    the new template's category and amount. *)
Theorem handleCreateRecurring_next_opening (env env' : Env) (name : string)
    (amount : Q) (category : string) (s : AppState) :
  let s1 := after (handleCreateRecurring env name amount category) s in
  let newRec := Recurring.mk (Js.String_of_int (Date_now env 0))
                             name amount category in
  transactions s1 = transactions s
  ∧ result renderFigures s1 = result renderFigures s
  ∧ ∀ incomeInput rolloverInput : Q,
      transactions (after (startNewMonth env' incomeInput rolloverInput) s1)
      = (transactions (after (startNewMonth env' incomeInput rolloverInput) s)
         ++ [autoTransaction env' (currentMonthKey s)
               (length (recurringExpenses s)) newRec])%list.
Proof.
  intros s1 newRec. split; [reflexivity|]. split; [reflexivity|].
  intros incomeInput rolloverInput. rewrite !startNewMonth_after.
  cbn [transactions]. subst s1.
  change (recurringExpenses
            (after (handleCreateRecurring env name amount category) s))
    with (recurringExpenses s ++ [newRec])%list.
  change (currentMonthKey
            (after (handleCreateRecurring env name amount category) s))
    with (currentMonthKey s).
  rewrite imap_app, <- app_assoc. cbn [imap].
  now rewrite Nat.add_0_r.
Qed.



End Registries.

(** ** From one month to the next *)

Section CarryOver.

#[local] Open Scope Q_scope.



End CarryOver.
